(** * File Access Plugin: a shallow embedding of [implementation.js]

    The plugin mediates access of a chat client to a directory tree the
    user picked.  The development follows the source file top to bottom:
    string helpers and [validateFilePath], the host (File System Access
    API, IndexedDB, pickers) as an explicit world with a call trace, then
    [StorageManager], [DirectoryPermissionManager] and [FileAccessManager]
    in a state-and-exception monad, and last the properties.

    JavaScript strings are modelled as byte strings ([string]); a JavaScript
    [Error] is modelled by its [message]. *)

From Stdlib Require Import String Ascii List ZArith Lia Bool Permutation.
From Stdlib Require Import DecimalString.
Import ListNotations.
Local Open Scope string_scope.
Local Open Scope list_scope.

(** ** String primitives of the JavaScript runtime *)

Module Js.

(** [s.includes(sub)] *)
Fixpoint includes (s sub : string) : bool :=
  if prefix sub s then true
  else match s with
       | EmptyString => false
       | String _ s' => includes s' sub
       end.

(** [s.startsWith(sub)] *)
Definition startsWith (s sub : string) : bool := prefix sub s.

Fixpoint mapChars (f : ascii -> ascii) (s : string) : string :=
  match s with
  | EmptyString => EmptyString
  | String c s' => String (f c) (mapChars f s')
  end.

(** [s.replace(/\\/g, '/')] *)
Definition backslashesToSlashes (s : string) : string :=
  mapChars (fun c => if Ascii.eqb c "\" then "/"%char else c) s.

Definition isUpper (c : ascii) : bool :=
  let n := nat_of_ascii c in ((65 <=? n) && (n <=? 90))%nat.

Definition isLower (c : ascii) : bool :=
  let n := nat_of_ascii c in ((97 <=? n) && (n <=? 122))%nat.

(** [s.toLowerCase()], on the ASCII letters. *)
Definition toLowerCase (s : string) : string :=
  mapChars (fun c => if isUpper c then ascii_of_nat (nat_of_ascii c + 32) else c) s.

(** [/^[A-Za-z]:/.test(s)] *)
Definition hasDriveLetter (s : string) : bool :=
  match s with
  | String c (String ":" _) => isUpper c || isLower c
  | _ => false
  end.

(** [s.split(sep)] for a one-character separator; never empty. *)
Fixpoint split (sep : ascii) (s : string) : list string :=
  match s with
  | EmptyString => [EmptyString]
  | String c s' =>
      if Ascii.eqb c sep then EmptyString :: split sep s'
      else match split sep s' with
           | h :: t => String c h :: t
           | [] => [String c EmptyString]
           end
  end.

(** [s.split('/').filter(segment => segment.length > 0)] *)
Definition segmentsOf (s : string) : list string :=
  filter (fun seg => (0 <? String.length seg)%nat) (split "/" s).

(** [s.replace(/\/+/g, '/')]: every run of slashes becomes one slash. *)
Fixpoint collapseSlashes (s : string) : string :=
  match s with
  | EmptyString => EmptyString
  | String c s' =>
      if Ascii.eqb c "/" then
        match s' with
        | String "/" _ => collapseSlashes s'
        | _ => String "/" (collapseSlashes s')
        end
      else String c (collapseSlashes s')
  end.

(** [s.lastIndexOf(c)]: -1 when [c] does not occur. *)
Fixpoint lastIndexOfFrom (c : ascii) (s : string) (i : Z) (found : Z) : Z :=
  match s with
  | EmptyString => found
  | String d s' => lastIndexOfFrom c s' (i + 1) (if Ascii.eqb d c then i else found)
  end.

Definition lastIndexOf (s : string) (c : ascii) : Z := lastIndexOfFrom c s 0 (-1).

(** [n >>> 0]: the unsigned 32-bit reading of an integer. *)
Definition toUint32 (n : Z) : Z := n mod 2 ^ 32.

(** [s.slice(start)] for [start >= 0]. *)
Fixpoint dropChars (n : nat) (s : string) : string :=
  match n, s with
  | O, _ => s
  | S n', String _ s' => dropChars n' s'
  | S _, EmptyString => EmptyString
  end.

Definition slice (s : string) (start : Z) : string :=
  if (Z.of_nat (String.length s) <=? start)%Z then EmptyString
  else dropChars (Z.to_nat start) s.

(** Truthiness of a string: only the empty string is falsy. *)
Definition truthy (s : string) : bool := negb (String.eqb s "").

(** [`${n}`] for an integer. *)
Definition numberToString (n : Z) : string := NilZero.string_of_int (Z.to_int n).

End Js.

(** ** Results of calls that may throw *)

Inductive Res (A : Type) : Type :=
| Ok (a : A)
| Throw (message : string).
Arguments Ok {A} a.
Arguments Throw {A} message.

(** ** [validateFilePath] *)

Definition sensitiveDirectories : list string :=
  ["system"; "windows"; "program files"; "etc"; "var"].

Definition msgInvalidPath := "Invalid file path provided".
Definition msgTraversal := "Directory traversal is not allowed".
Definition msgRelativeOnly :=
  "When directory access is granted, use paths relative to the selected directory".
Definition msgAbsolute := "Absolute paths are not allowed".
Definition msgSensitive := "Access to sensitive directories is not allowed".

(** [if (cond) throw new Error(message)] followed by the rest of the body. *)
Definition throwIf {A : Type} (cond : bool) (message : string) (rest : Res A) : Res A :=
  if cond then Throw message else rest.

Definition isRootPath (path : string) : bool :=
  String.eqb path "" || String.eqb path "." || String.eqb path "./".

Definition isAbsolute (normalizedPath : string) : bool :=
  Js.startsWith normalizedPath "/" || Js.hasDriveLetter normalizedPath.

Definition validateFilePath (path : string) (directoryAccessGranted : bool) : Res bool :=
  if isRootPath path then Ok true
  else
    (* [!path || typeof path !== 'string']: paths are strings here *)
    throwIf (negb (Js.truthy path)) msgInvalidPath (
    let normalizedPath := Js.backslashesToSlashes path in
    throwIf (Js.includes normalizedPath "../" || Js.includes normalizedPath "..\")
            msgTraversal (
    (if directoryAccessGranted
     then throwIf (isAbsolute normalizedPath) msgRelativeOnly
     else throwIf (isAbsolute normalizedPath) msgAbsolute) (
    throwIf (existsb (fun dir => Js.includes (Js.toLowerCase normalizedPath) dir)
                     sensitiveDirectories)
            msgSensitive (
    Ok true)))).

(** A path has a [..] segment when one of the pieces between separators
    ([/] or [\]) is exactly [..]. *)
Definition hasDotDotSegment (path : string) : bool :=
  existsb (String.eqb "..") (Js.split "/" (Js.backslashesToSlashes path)).

(** [getFileExtension] and [isTextFile] *)

Definition getFileExtension (path : string) : string :=
  Js.slice path (Js.toUint32 (Js.lastIndexOf path "." - 1) + 2).

Definition textExtensions : list string :=
  ["txt"; "md"; "js"; "jsx"; "ts"; "tsx"; "html"; "css"; "json"; "csv"; "xml";
   "py"; "java"; "c"; "cpp"; "h"; "rb"].

Definition isTextFile (path : string) : bool :=
  existsb (String.eqb (Js.toLowerCase (getFileExtension path))) textExtensions.

(** ** The host: directory tree, handles, permissions, pickers, IndexedDB *)

(** A file holds its bytes and its modification time; a directory holds
    named children in enumeration order. *)
#[warnings="-register-all"]
Inductive Node : Type :=
| File (bytes : string) (lastModified : Z)
| Dir (entries : list (string * Node)).

(** A handle designates a place in the host's tree by the names leading
    to it; [handle.name] is the last of them. *)
Definition Handle := list string.

Definition handleName (h : Handle) : string := last h "".

Fixpoint assoc {A : Type} (k : string) (l : list (string * A)) : option A :=
  match l with
  | [] => None
  | (k', v) :: l' => if String.eqb k k' then Some v else assoc k l'
  end.

(** Replace the binding of [k], or add one at the end. *)
Fixpoint upsert {A : Type} (k : string) (v : A) (l : list (string * A)) : list (string * A) :=
  match l with
  | [] => [(k, v)]
  | (k', v') :: l' => if String.eqb k k' then (k, v) :: l' else (k', v') :: upsert k v l'
  end.

Fixpoint lookup (n : Node) (p : Handle) : option Node :=
  match p with
  | [] => Some n
  | s :: p' =>
      match n with
      | Dir es => match assoc s es with
                  | Some c => lookup c p'
                  | None => None
                  end
      | File _ _ => None
      end
  end.

(** Put [v] at [p]; the parent of [p] must be an existing directory. *)
Fixpoint put (n : Node) (p : Handle) (v : Node) : option Node :=
  match p with
  | [] => Some v
  | s :: p' =>
      match n with
      | Dir es =>
          option_map (fun c' => Dir (upsert s c' es))
            match assoc s es, p' with
            | Some c, _ => put c p' v
            | None, [] => Some v
            | None, _ :: _ => None
            end
      | File _ _ => None
      end
  end.

Inductive PermissionState : Type := granted | denied | prompt.

Definition isGranted (p : PermissionState) : bool :=
  match p with granted => true | _ => false end.

(** What the host and the user answer; fixed while an operation runs.
    The theorems quantify over it, so no answer is assumed stable from one
    operation to the next. *)
Record Oracle : Type := {
  queryAnswer : Handle -> Res PermissionState;   (* handle.queryPermission *)
  requestAnswer : Handle -> Res PermissionState; (* handle.requestPermission *)
  directoryPick : Res Handle;                    (* showDirectoryPicker; Throw = cancelled *)
  openFilePick : Res Handle;                     (* showOpenFilePicker, first handle *)
  saveFilePick : Res Handle;                     (* showSaveFilePicker *)
  accessDenied : Handle -> bool;                 (* the host refuses calls on this handle *)
  idbError : option string;                      (* IndexedDB requests fail with this error *)
  freshId : Z -> string;                         (* dir_<Date.now()>_<random> *)
  isoDate : Z -> string;                         (* new Date().toISOString() *)
  mimeType : string -> string;                   (* file.type, from the name *)
  dataURL : string -> string -> string           (* FileReader.readAsDataURL: type, bytes *)
}.

(** Calls observable from outside an operation.  [Validate] is the entry
    of [validateFilePath] (its first log line); all others are calls on
    the host, named after the method called. *)
Inductive Event : Type :=
| Validate (path : string) (directoryAccessGranted : bool)
| DirectoryPicker
| OpenFilePicker
| SaveFilePicker (suggestedName : string)
| QueryPermission (h : Handle)
| RequestPermission (h : Handle)
| GetDirectoryHandle (parent : Handle) (name : string) (create : bool)
| GetFileHandle (parent : Handle) (name : string) (create : bool)
| Values (h : Handle)
| GetFile (h : Handle)
| Text (name : string)
| ReadAsDataURL (name : string)
| CreateWritable (h : Handle)
| WriteStream (h : Handle) (content : string)
| CloseStream (h : Handle)
| IdbOpen
| IdbAdd (id : string)
| IdbGetAll
| IdbGet (id : string)
| IdbDelete (id : string).

Definition isValidate (e : Event) : bool :=
  match e with Validate _ _ => true | _ => false end.

(** Calls that look something up in, or change, the directory tree. *)
Definition isFilesystemCall (e : Event) : bool :=
  match e with
  | GetDirectoryHandle _ _ _ | GetFileHandle _ _ _ | Values _ | GetFile _
  | Text _ | ReadAsDataURL _ | CreateWritable _ | WriteStream _ _ | CloseStream _ => true
  | _ => false
  end.

(** Calls that turn a file's bytes into the returned content. *)
Definition isDecode (e : Event) : bool :=
  match e with Text _ | ReadAsDataURL _ => true | _ => false end.

(** Calls that resolve a name under a directory handle. *)
Definition isResolve (e : Event) : bool :=
  match e with GetDirectoryHandle _ _ _ | GetFileHandle _ _ _ => true | _ => false end.

(** ** Program state *)

(** A record of the [directoryHandles] object store. *)
Record DirRecord : Type := {
  rec_id : string;
  rec_name : string;
  rec_handle : Handle;
  rec_path : string;
  rec_dateAdded : string
}.

(** The fields of [DirectoryPermissionManager] that make the session. *)
Record Session : Type := {
  rootDirectoryHandle : option Handle;
  permissionGranted : bool;
  currentDirectoryId : option string
}.

(** The fields of [FileAccessManager] set by its constructor. *)
Record Options : Type := {
  baseDirectory : string;
  maxFileSize : Z;
  allowedExtensions : option (list string)
}.

Record World : Type := {
  session : Session;
  isInitialized : bool;          (* StorageManager.isInitialized *)
  options : Options;
  oracle : Oracle;
  tree : Node;                   (* the host's files *)
  idb : list DirRecord;          (* the object store *)
  clock : Z                      (* the host's time *)
}.

Definition set_session (f : Session -> Session) (w : World) : World :=
  {| session := f (session w); isInitialized := isInitialized w; options := options w;
     oracle := oracle w; tree := tree w; idb := idb w; clock := clock w |}.

Definition set_isInitialized (b : bool) (w : World) : World :=
  {| session := session w; isInitialized := b; options := options w;
     oracle := oracle w; tree := tree w; idb := idb w; clock := clock w |}.

Definition set_tree (t : Node) (w : World) : World :=
  {| session := session w; isInitialized := isInitialized w; options := options w;
     oracle := oracle w; tree := t; idb := idb w; clock := clock w |}.

Definition set_idb (l : list DirRecord) (w : World) : World :=
  {| session := session w; isInitialized := isInitialized w; options := options w;
     oracle := oracle w; tree := tree w; idb := l; clock := clock w |}.

Definition tick (w : World) : World :=
  {| session := session w; isInitialized := isInitialized w; options := options w;
     oracle := oracle w; tree := tree w; idb := idb w; clock := (clock w + 1)%Z |}.

Definition set_rootDirectoryHandle (h : option Handle) (s : Session) : Session :=
  {| rootDirectoryHandle := h; permissionGranted := permissionGranted s;
     currentDirectoryId := currentDirectoryId s |}.

Definition set_permissionGranted (b : bool) (s : Session) : Session :=
  {| rootDirectoryHandle := rootDirectoryHandle s; permissionGranted := b;
     currentDirectoryId := currentDirectoryId s |}.

Definition set_currentDirectoryId (i : option string) (s : Session) : Session :=
  {| rootDirectoryHandle := rootDirectoryHandle s; permissionGranted := permissionGranted s;
     currentDirectoryId := i |}.

(** ** The monad of operations: state kept across a throw, calls recorded *)

Record Outcome (A : Type) : Type := mkOutcome {
  result : Res A;
  final : World;
  calls : list Event
}.
Arguments mkOutcome {A} result final calls.
Arguments result {A} o.
Arguments final {A} o.
Arguments calls {A} o.

Definition M (A : Type) : Type := World -> Outcome A.

Definition ret {A : Type} (a : A) : M A := fun w => mkOutcome (Ok a) w [].

Definition throw {A : Type} (message : string) : M A := fun w => mkOutcome (Throw message) w [].

Definition bind {A B : Type} (m : M A) (f : A -> M B) : M B :=
  fun w =>
    match m w with
    | mkOutcome (Ok a) w1 t1 =>
        match f a w1 with
        | mkOutcome r w2 t2 => mkOutcome r w2 (t1 ++ t2)
        end
    | mkOutcome (Throw e) w1 t1 => mkOutcome (Throw e) w1 t1
    end.

(** [try { m } catch (error) { h error.message }] *)
Definition tryCatch {A : Type} (m : M A) (h : string -> M A) : M A :=
  fun w =>
    match m w with
    | mkOutcome (Ok a) w1 t1 => mkOutcome (Ok a) w1 t1
    | mkOutcome (Throw e) w1 t1 =>
        match h e w1 with
        | mkOutcome r w2 t2 => mkOutcome r w2 (t1 ++ t2)
        end
    end.

Definition get : M World := fun w => mkOutcome (Ok w) w [].

Definition modify (f : World -> World) : M unit := fun w => mkOutcome (Ok tt) (f w) [].

Definition emit (e : Event) : M unit := fun w => mkOutcome (Ok tt) w [e].

Definition liftRes {A : Type} (r : Res A) : M A := fun w => mkOutcome r w [].

Declare Scope op_scope.
Delimit Scope op_scope with op.
Notation "x <- m ;; k" := (bind m (fun x => k))
  (at level 61, m at next level, right associativity) : op_scope.
Notation "m ;; k" := (bind m (fun _ => k))
  (at level 61, right associativity) : op_scope.
Local Open Scope op_scope.

Fixpoint forEach {A B : Type} (f : A -> M B) (l : list A) : M (list B) :=
  match l with
  | [] => ret []
  | a :: l' => b <- f a ;; bs <- forEach f l' ;; ret (b :: bs)
  end.

(** ** The host's interfaces *)

(** Modelled from the spec: the host capability provider and the durable
    record store (section 6 of the specification) are external to the
    repository.  Each definition below stands for the method of the File
    System Access API or of IndexedDB that the source calls, acting on the
    tree and answering from the oracle; each records its call. *)
Module Host.

Definition notFoundError := "NotFoundError".
Definition typeMismatchError := "TypeMismatchError".
Definition notAllowedError := "NotAllowedError".
Definition typeError := "TypeError: Name is not allowed.".
Definition constraintError := "ConstraintError".

(** A file name is valid when it is not empty, not [.] or [..], and
    holds no separator. *)
Definition validName (name : string) : bool :=
  negb (String.eqb name "") && negb (String.eqb name ".") && negb (String.eqb name "..")
  && negb (Js.includes name "/").

Definition showDirectoryPicker : M Handle :=
  emit DirectoryPicker ;; w <- get ;; liftRes (directoryPick (oracle w)).

Definition showOpenFilePicker : M Handle :=
  emit OpenFilePicker ;; w <- get ;; liftRes (openFilePick (oracle w)).

(** The picked file exists afterwards: the host creates it when it is new. *)
Definition showSaveFilePicker (suggestedName : string) : M Handle :=
  emit (SaveFilePicker suggestedName) ;;
  w <- get ;;
  h <- liftRes (saveFilePick (oracle w)) ;;
  match lookup (tree w) h with
  | Some _ => ret h
  | None =>
      match put (tree w) h (File "" (clock w)) with
      | Some t => modify (set_tree t) ;; modify tick ;; ret h
      | None => throw notFoundError
      end
  end.

Definition queryPermission (h : Handle) : M PermissionState :=
  emit (QueryPermission h) ;; w <- get ;; liftRes (queryAnswer (oracle w) h).

Definition requestPermission (h : Handle) : M PermissionState :=
  emit (RequestPermission h) ;; w <- get ;; liftRes (requestAnswer (oracle w) h).

(** [parent.getDirectoryHandle(name, { create })] *)
Definition getDirectoryHandle (parent : Handle) (name : string) (create : bool) : M Handle :=
  emit (GetDirectoryHandle parent name create) ;;
  w <- get ;;
  if negb (validName name) then throw typeError
  else if accessDenied (oracle w) parent then throw notAllowedError
  else
    match lookup (tree w) parent with
    | Some (Dir es) =>
        match assoc name es with
        | Some (Dir _) => ret (parent ++ [name])
        | Some (File _ _) => throw typeMismatchError
        | None =>
            if create then
              match put (tree w) (parent ++ [name]) (Dir []) with
              | Some t => modify (set_tree t) ;; ret (parent ++ [name])
              | None => throw notFoundError
              end
            else throw notFoundError
        end
    | _ => throw notFoundError
    end.

(** [parent.getFileHandle(name, { create })] *)
Definition getFileHandle (parent : Handle) (name : string) (create : bool) : M Handle :=
  emit (GetFileHandle parent name create) ;;
  w <- get ;;
  if negb (validName name) then throw typeError
  else if accessDenied (oracle w) parent then throw notAllowedError
  else
    match lookup (tree w) parent with
    | Some (Dir es) =>
        match assoc name es with
        | Some (File _ _) => ret (parent ++ [name])
        | Some (Dir _) => throw typeMismatchError
        | None =>
            if create then
              match put (tree w) (parent ++ [name]) (File "" (clock w)) with
              | Some t => modify (set_tree t) ;; modify tick ;; ret (parent ++ [name])
              | None => throw notFoundError
              end
            else throw notFoundError
        end
    | _ => throw notFoundError
    end.

Inductive Kind : Type := file | directory.

Definition kindOf (n : Node) : Kind :=
  match n with File _ _ => file | Dir _ => directory end.

(** [handle.values()], all entries at once. *)
Definition values (h : Handle) : M (list (string * Kind)) :=
  emit (Values h) ;;
  w <- get ;;
  if accessDenied (oracle w) h then throw notAllowedError
  else
    match lookup (tree w) h with
    | Some (Dir es) => ret (map (fun e => (fst e, kindOf (snd e))) es)
    | _ => throw notFoundError
    end.

(** The [File] object a file handle gives. *)
Record FileObject : Type := {
  file_name : string;
  file_size : Z;
  file_type : string;
  file_lastModified : Z;
  file_bytes : string
}.

Definition getFile (h : Handle) : M FileObject :=
  emit (GetFile h) ;;
  w <- get ;;
  if accessDenied (oracle w) h then throw notAllowedError
  else
    match lookup (tree w) h with
    | Some (File bytes mtime) =>
        ret {| file_name := handleName h;
               file_size := Z.of_nat (String.length bytes);
               file_type := mimeType (oracle w) (handleName h);
               file_lastModified := mtime;
               file_bytes := bytes |}
    | _ => throw notFoundError
    end.

(** [file.text()]: the bytes read as UTF-8. *)
Definition text (f : FileObject) : M string :=
  emit (Text (file_name f)) ;; ret (file_bytes f).

(** [FileReader.readAsDataURL(file)], resolved by [onload]. *)
Definition readAsDataURL (f : FileObject) : M string :=
  emit (ReadAsDataURL (file_name f)) ;;
  w <- get ;;
  ret (dataURL (oracle w) (file_type f) (file_bytes f)).

(** A writable stream: its target and what was written so far; the
    target changes when the stream is closed. *)
Record Writable : Type := {
  w_target : Handle;
  w_buffer : string
}.

Definition createWritable (h : Handle) : M Writable :=
  emit (CreateWritable h) ;;
  w <- get ;;
  if accessDenied (oracle w) h then throw notAllowedError
  else
    match lookup (tree w) h with
    | Some (File _ _) => ret {| w_target := h; w_buffer := "" |}
    | _ => throw notFoundError
    end.

Definition write (s : Writable) (content : string) : M Writable :=
  emit (WriteStream (w_target s) content) ;;
  ret {| w_target := w_target s; w_buffer := w_buffer s ++ content |}.

Definition close (s : Writable) : M unit :=
  emit (CloseStream (w_target s)) ;;
  w <- get ;;
  match put (tree w) (w_target s) (File (w_buffer s) (clock w)) with
  | Some t => modify (set_tree t) ;; modify tick
  | None => throw notFoundError
  end.

End Host.

(** ** [StorageManager] *)

Module StorageManager.

Definition initialize : M bool :=
  w <- get ;;
  if isInitialized w then ret true
  else
    emit IdbOpen ;;
    match idbError (oracle w) with
    | Some e => throw ("Failed to initialize storage: " ++ e)
    | None => modify (set_isInitialized true) ;; ret true
    end.

Definition hasKey (id : string) (l : list DirRecord) : bool :=
  existsb (fun r => String.eqb (rec_id r) id) l.

Definition storeDirectoryHandle (dirHandle : Handle) (name : string) : M string :=
  initialize ;;
  w <- get ;;
  let id := freshId (oracle w) (clock w) in
  let record := {| rec_id := id;
                   rec_name := if Js.truthy name then name else handleName dirHandle;
                   rec_handle := dirHandle;
                   rec_path := handleName dirHandle;
                   rec_dateAdded := isoDate (oracle w) (clock w) |} in
  modify tick ;;
  emit (IdbAdd id) ;;
  match idbError (oracle w) with
  | Some e => throw ("Failed to store directory handle: " ++ e)
  | None =>
      if hasKey id (idb w)
      then throw ("Failed to store directory handle: " ++ Host.constraintError)
      else modify (set_idb (idb w ++ [record])) ;; ret id
  end.

(** [store.getAll()].  The host returns the records in the order of their
    keys; the list here keeps the order in which they were added, so the
    order of the result is the model's and not the host's. *)
Definition getAllDirectoryHandles : M (list DirRecord) :=
  initialize ;;
  emit IdbGetAll ;;
  w <- get ;;
  match idbError (oracle w) with
  | Some e => throw ("Failed to get directory handles: " ++ e)
  | None => ret (idb w)
  end.

(** [null] is [None]. *)
Definition getDirectoryHandle (id : string) : M (option DirRecord) :=
  initialize ;;
  emit (IdbGet id) ;;
  w <- get ;;
  match idbError (oracle w) with
  | Some e => throw ("Failed to get directory handle: " ++ e)
  | None => ret (find (fun r => String.eqb (rec_id r) id) (idb w))
  end.

Definition removeDirectoryHandle (id : string) : M bool :=
  initialize ;;
  emit (IdbDelete id) ;;
  w <- get ;;
  match idbError (oracle w) with
  | Some e => throw ("Failed to remove directory handle: " ++ e)
  | None =>
      modify (set_idb (filter (fun r => negb (String.eqb (rec_id r) id)) (idb w))) ;;
      ret true
  end.

End StorageManager.

(** ** [DirectoryPermissionManager] *)

Module DirectoryPermissionManager.

(** The constructor's session. *)
Definition initial : Session :=
  {| rootDirectoryHandle := None; permissionGranted := false; currentDirectoryId := None |}.

Definition msgNoPermission :=
  "No directory permission granted. Call requestDirectoryPermission first.".
Definition msgEmptyPath := "Invalid file path: path cannot be empty".

Definition verifyPermission (dirHandle : Handle) (askForPermission : bool) : M bool :=
  q <- Host.queryPermission dirHandle ;;
  if isGranted q then ret true
  else if askForPermission then
    r <- Host.requestPermission dirHandle ;; ret (isGranted r)
  else ret false.

Definition requestDirectoryPermission : M bool :=
  tryCatch
    (h <- Host.showDirectoryPicker ;;
     modify (set_session (set_rootDirectoryHandle (Some h))) ;;
     g <- verifyPermission h true ;;
     modify (set_session (set_permissionGranted g)) ;;
     (if g then
        id <- StorageManager.storeDirectoryHandle h "" ;;
        modify (set_session (set_currentDirectoryId (Some id)))
      else ret tt) ;;
     w <- get ;;
     ret (permissionGranted (session w)))
    (fun e =>
       modify (set_session (set_permissionGranted false)) ;;
       throw ("Failed to get directory permission: " ++ e)).

(** An element of the list [getStoredDirectories] returns; [vd_error]
    is present only when the permission check threw. *)
Record VerifiedDirectory : Type := {
  vd_id : string;
  vd_name : string;
  vd_path : string;
  vd_hasPermission : bool;
  vd_dateAdded : string;
  vd_error : option string
}.

Definition verifyRecord (dir : DirRecord) : M VerifiedDirectory :=
  tryCatch
    (hasPermission <- verifyPermission (rec_handle dir) false ;;
     ret {| vd_id := rec_id dir; vd_name := rec_name dir; vd_path := rec_path dir;
            vd_hasPermission := hasPermission; vd_dateAdded := rec_dateAdded dir;
            vd_error := None |})
    (fun e =>
       ret {| vd_id := rec_id dir; vd_name := rec_name dir; vd_path := rec_path dir;
              vd_hasPermission := false; vd_dateAdded := rec_dateAdded dir;
              vd_error := Some e |}).

Definition getStoredDirectories : M (list VerifiedDirectory) :=
  tryCatch
    (directories <- StorageManager.getAllDirectoryHandles ;;
     forEach verifyRecord directories)
    (fun e => throw ("Failed to get stored directories: " ++ e)).

Definition switchDirectory (directoryId : string) : M bool :=
  tryCatch
    (dirRecord <- StorageManager.getDirectoryHandle directoryId ;;
     match dirRecord with
     | None => throw ("Directory with ID " ++ directoryId ++ " not found")
     | Some dirRecord =>
         g <- verifyPermission (rec_handle dirRecord) true ;;
         modify (set_session (set_permissionGranted g)) ;;
         if g then
           modify (set_session (set_rootDirectoryHandle (Some (rec_handle dirRecord)))) ;;
           modify (set_session (set_currentDirectoryId (Some directoryId))) ;;
           ret true
         else ret false
     end)
    (fun e => throw ("Failed to switch directory: " ++ e)).

Definition isCurrent (w : World) (directoryId : string) : bool :=
  match currentDirectoryId (session w) with
  | Some id => String.eqb id directoryId
  | None => false
  end.

Definition removeDirectory (directoryId : string) : M bool :=
  tryCatch
    (w <- get ;;
     (if isCurrent w directoryId then
        modify (set_session (set_rootDirectoryHandle None)) ;;
        modify (set_session (set_permissionGranted false)) ;;
        modify (set_session (set_currentDirectoryId None))
      else ret tt) ;;
     StorageManager.removeDirectoryHandle directoryId)
    (fun e => throw ("Failed to remove directory: " ++ e)).

(** The loop [for (const segment of segments) currentDir = await
    currentDir.getDirectoryHandle(segment, { create })]. *)
Fixpoint walk (currentDir : Handle) (segments : list string) (create : bool) : M Handle :=
  match segments with
  | [] => ret currentDir
  | segment :: rest =>
      next <- Host.getDirectoryHandle currentDir segment create ;;
      walk next rest create
  end.

(** The body shared by [getFileHandle] ([create = false]) and
    [createFileHandle] ([create = true]). *)
Definition fileHandleAt (root : Handle) (path : string) (create : bool) : M Handle :=
  let segments := Js.segmentsOf path in
  if (length segments =? 0)%nat then throw msgEmptyPath
  else
    let fileName := last segments "" in
    currentDir <- walk root (removelast segments) create ;;
    Host.getFileHandle currentDir fileName create.

Definition getFileHandle (path : string) : M Handle :=
  w <- get ;;
  match rootDirectoryHandle (session w) with
  | None => throw msgNoPermission
  | Some root =>
      tryCatch (fileHandleAt root path false)
               (fun e => throw ("Failed to get file handle: " ++ e))
  end.

Definition getDirectoryHandle (path : string) : M Handle :=
  w <- get ;;
  match rootDirectoryHandle (session w) with
  | None => throw msgNoPermission
  | Some root =>
      tryCatch
        (if negb (Js.truthy path) || String.eqb path "/" || String.eqb path "."
         then ret root
         else walk root (Js.segmentsOf path) false)
        (fun e => throw ("Failed to get directory handle: " ++ e))
  end.

Definition createFileHandle (path : string) : M Handle :=
  w <- get ;;
  match rootDirectoryHandle (session w) with
  | None => throw msgNoPermission
  | Some root =>
      tryCatch (fileHandleAt root path true)
               (fun e => throw ("Failed to create file handle: " ++ e))
  end.

Definition hasPermission (w : World) : bool :=
  match rootDirectoryHandle (session w) with
  | Some _ => permissionGranted (session w)
  | None => false
  end.

Definition getRootDirectoryName (w : World) : string :=
  match rootDirectoryHandle (session w) with
  | Some h => handleName h
  | None => ""
  end.

(** [tryConvertToRelativePath]; [null] is [None].  Nothing in its [try]
    block can throw on strings. *)
Definition tryConvertToRelativePath (w : World) (absolutePath : string) : option string :=
  match rootDirectoryHandle (session w) with
  | None => None
  | Some root =>
      if negb (Js.truthy absolutePath) then None
      else
        let rootPath := handleName root in
        let normalizedAbsolutePath := Js.backslashesToSlashes absolutePath in
        let normalizedRootPath := Js.backslashesToSlashes rootPath in
        if Js.startsWith normalizedAbsolutePath normalizedRootPath then
          let relativePath :=
            Js.dropChars (String.length normalizedRootPath) normalizedAbsolutePath in
          Some (if Js.startsWith relativePath "/"
                then Js.dropChars 1 relativePath
                else relativePath)
        else None
  end.

End DirectoryPermissionManager.

(** ** [FileAccessManager] *)

Module DPM := DirectoryPermissionManager.

Module FileAccessManager.

(** The constructor: [options.x || default]. *)
Definition constructor (baseDirectory : option string) (maxFileSize : option Z)
           (allowedExtensions : option (list string)) : Options :=
  {| baseDirectory := match baseDirectory with Some d => d | None => "" end;
     maxFileSize := match maxFileSize with
                    | Some n => if (n =? 0)%Z then (10 * 1024 * 1024)%Z else n
                    | None => (10 * 1024 * 1024)%Z
                    end;
     allowedExtensions := allowedExtensions |}.

(** A fresh manager over a host. *)
Definition newWorld (o : Options) (orc : Oracle) (t : Node) (db : list DirRecord)
           (now : Z) : World :=
  {| session := DPM.initial; isInitialized := false; options := o; oracle := orc;
     tree := t; idb := db; clock := now |}.

Definition _resolvePath (relativePath : string) : M string :=
  w <- get ;;
  emit (Validate relativePath (DPM.hasPermission w)) ;;
  _ <- liftRes (validateFilePath relativePath (DPM.hasPermission w)) ;;
  ret (if Js.truthy (baseDirectory (options w))
       then Js.collapseSlashes (baseDirectory (options w) ++ "/" ++ relativePath)
       else relativePath).

(** An element of the list [listFiles] returns. *)
Record Entry : Type := {
  entry_name : string;
  entry_kind : Host.Kind;
  entry_path : string
}.

Definition joinPath (directory name : string) : string :=
  Js.collapseSlashes (directory ++ "/" ++ name).

Definition listFiles (directory : string) : M (list Entry) :=
  tryCatch
    (w <- get ;;
     if DPM.hasPermission w then
       dirHandle <- DPM.getDirectoryHandle directory ;;
       entries <- Host.values dirHandle ;;
       ret (map (fun e => {| entry_name := fst e; entry_kind := snd e;
                             entry_path := if Js.truthy directory
                                           then joinPath directory (fst e)
                                           else fst e |}) entries)
     else
       _ <- _resolvePath directory ;;
       dirHandle <- Host.showDirectoryPicker ;;
       entries <- Host.values dirHandle ;;
       ret (map (fun e => {| entry_name := fst e; entry_kind := snd e;
                             entry_path := joinPath directory (fst e) |}) entries))
    (fun e => throw ("Failed to list files: " ++ e)).

(** What [readFile] returns. *)
Record FileContent : Type := {
  fc_content : string;
  fc_name : string;
  fc_size : Z;
  fc_type : string;
  fc_lastModified : Z
}.

(** First part of [readFile]: the [File] object, from the granted
    directory or from the picker. *)
Definition acquireFile (filePath : string) : M Host.FileObject :=
  w <- get ;;
  if DPM.hasPermission w && Js.truthy filePath then
    fileHandle <- DPM.getFileHandle filePath ;;
    Host.getFile fileHandle
  else
    _ <- _resolvePath filePath ;;
    fileHandle <- Host.showOpenFilePicker ;;
    Host.getFile fileHandle.

Definition msgTooLarge (maxFileSize : Z) : string :=
  "File size exceeds maximum allowed (" ++ Js.numberToString maxFileSize ++ " bytes)".

(** [file.name.split('.').pop().toLowerCase()] *)
Definition extensionOf (name : string) : string :=
  Js.toLowerCase (last (Js.split "." name) "").

Definition readFile (filePath : string) : M FileContent :=
  tryCatch
    (file <- acquireFile filePath ;;
     w <- get ;;
     (if (Host.file_size file >? maxFileSize (options w))%Z
      then throw (msgTooLarge (maxFileSize (options w)))
      else ret tt) ;;
     match allowedExtensions (options w) with
     | Some exts =>
         let ext := extensionOf (Host.file_name file) in
         if negb (existsb (String.eqb ext) exts)
         then throw ("File type ." ++ ext ++ " is not allowed")
         else ret tt
     | None => ret tt
     end ;;
     content <- (if isTextFile (Host.file_name file)
                 then Host.text file
                 else Host.readAsDataURL file) ;;
     ret {| fc_content := content;
            fc_name := Host.file_name file;
            fc_size := Host.file_size file;
            fc_type := Host.file_type file;
            fc_lastModified := Host.file_lastModified file |})
    (fun e => throw ("Failed to read file: " ++ e)).

Definition writeFile (filePath content : string) : M bool :=
  tryCatch
    (w <- get ;;
     fileHandle <- (if DPM.hasPermission w && Js.truthy filePath then
                      DPM.createFileHandle filePath
                    else
                      _ <- _resolvePath filePath ;;
                      Host.showSaveFilePicker (last (Js.split "/" filePath) "")) ;;
     writable <- Host.createWritable fileHandle ;;
     writable <- Host.write writable content ;;
     Host.close writable ;;
     ret true)
    (fun e => throw ("Failed to write file: " ++ e)).

(** What [requestDirectoryAccess] returns: [{ success: true, directory,
    message }], [{ success: false, message }] or [{ error: true, message }]. *)
Inductive AccessReply : Type :=
| AccessGranted (directory message : string)
| AccessRefused (message : string)
| AccessFailed (message : string).

Definition requestDirectoryAccess : M AccessReply :=
  tryCatch
    (wasGranted <- DPM.requestDirectoryPermission ;;
     if wasGranted then
       w <- get ;;
       let dirName := DPM.getRootDirectoryName w in
       ret (AccessGranted dirName ("Access granted to directory: " ++ dirName))
     else ret (AccessRefused "Directory access was denied"))
    (fun e => ret (AccessFailed ("Failed to request directory access: " ++ e))).

Definition hasDirectoryPermission (w : World) : bool := DPM.hasPermission w.

Definition getRootDirectoryName (w : World) : string := DPM.getRootDirectoryName w.

Definition getStoredDirectories : M (list DPM.VerifiedDirectory) :=
  tryCatch DPM.getStoredDirectories
           (fun e => throw ("Failed to get stored directories: " ++ e)).

(** What [switchDirectory] returns: [{ success: true, directory, message }]
    or [{ success: false, message }]. *)
Inductive SwitchResult : Type :=
| Switched (directory message : string)
| NotSwitched (message : string).

Definition switchDirectory (directoryId : string) : M SwitchResult :=
  tryCatch
    (success <- DPM.switchDirectory directoryId ;;
     if success then
       w <- get ;;
       let dirName := DPM.getRootDirectoryName w in
       ret (Switched dirName ("Switched to directory: " ++ dirName))
     else ret (NotSwitched "Failed to switch directory. Permission denied."))
    (fun e => throw ("Failed to switch directory: " ++ e)).

(** What [removeDirectory] returns: [{ success, message }]. *)
Record RemoveResult : Type := {
  rr_success : bool;
  rr_message : string
}.

Definition removeDirectory (directoryId : string) : M RemoveResult :=
  tryCatch
    (success <- DPM.removeDirectory directoryId ;;
     ret {| rr_success := success;
            rr_message := if success then "Directory removed successfully"
                          else "Failed to remove directory" |})
    (fun e => throw ("Failed to remove directory: " ++ e)).

End FileAccessManager.

Module FAM := FileAccessManager.

(** ** [FileAccessPlugin]: the commands *)

Module FileAccessPlugin.

(** The argument record of a command; a field may be missing. *)
Record Args : Type := {
  arg_path : option string;
  arg_content : option string;
  arg_directory : option string;
  arg_id : option string
}.

(** [args && args.field] when it is truthy. *)
Definition given (args : option Args) (field : Args -> option string) : option string :=
  match args with
  | Some a => match field a with
              | Some v => if Js.truthy v then Some v else None
              | None => None
              end
  | None => None
  end.

(** [args.field || ''] *)
Definition givenOrEmpty (args : option Args) (field : Args -> option string) : string :=
  match given args field with
  | Some v => v
  | None => ""
  end.

(** The objects the commands return, by shape. *)
Inductive Reply : Type :=
| ReplyError (message : string)
    (* { error: true, message } *)
| ReplyAccess (directory message : string)
    (* { success: true, directory, message } *)
| ReplyFile (content name : string) (size : Z) (message : string)
    (* { type: 'file', content, name, size, message } *)
| ReplyWritten (message : string)
    (* { success: true, message } *)
| ReplyFileList (files : list FAM.Entry) (directory : string) (hasDirectoryAccess : bool)
                (rootDirectory : option string) (message : string)
    (* { type: 'fileList', files, directory, hasDirectoryAccess, rootDirectory, message } *)
| ReplyDirectoryList (directories : list DPM.VerifiedDirectory) (message : string)
    (* { type: 'directoryList', directories, message } *)
| ReplySwitch (success : bool) (message : string) (directory : option string)
    (* { success, message, directory } *)
| ReplyRemove (success : bool) (message : string).
    (* { success, message } *)

(** The double quote of the messages. *)
Definition quote : string := String (ascii_of_nat 34) EmptyString.

Definition requestDirectoryAccess : M Reply :=
  tryCatch
    (result <- FAM.requestDirectoryAccess ;;
     match result with
     | FAM.AccessGranted directory message => ret (ReplyAccess directory message)
     | FAM.AccessRefused message => ret (ReplyError message)
     | FAM.AccessFailed message => ret (ReplyError message)
     end)
    (fun e => ret (ReplyError ("Failed to request directory access: " ++ e))).

Definition readFile (args : option Args) : M Reply :=
  tryCatch
    (match given args arg_path with
     | None =>
         result <- FAM.readFile "" ;;
         ret (ReplyFile (FAM.fc_content result) (FAM.fc_name result) (FAM.fc_size result)
                        ("File " ++ quote ++ FAM.fc_name result ++ quote
                                 ++ " read successfully."))
     | Some path =>
         result <- FAM.readFile path ;;
         ret (ReplyFile (FAM.fc_content result) (FAM.fc_name result) (FAM.fc_size result)
                        ("File " ++ quote ++ path ++ quote ++ " read successfully."))
     end)
    (fun e => ret (ReplyError ("Failed to read file: " ++ e))).

Definition writeFile (args : option Args) : M Reply :=
  tryCatch
    (match given args arg_content with
     | None => ret (ReplyError "No content provided for writing")
     | Some content =>
         let path := givenOrEmpty args arg_path in
         _ <- FAM.writeFile path content ;;
         ret (ReplyWritten ("File " ++ (if Js.truthy path
                                        then quote ++ path ++ quote ++ " "
                                        else "")
                                    ++ "written successfully."))
     end)
    (fun e => ret (ReplyError ("Failed to write file: " ++ e))).

Definition listFiles (args : option Args) : M Reply :=
  tryCatch
    (let directory := givenOrEmpty args arg_directory in
     files <- FAM.listFiles directory ;;
     w <- get ;;
     let hasDirectoryAccess := FAM.hasDirectoryPermission w in
     let rootDirectory := if hasDirectoryAccess
                          then Some (FAM.getRootDirectoryName w) else None in
     ret (ReplyFileList files directory hasDirectoryAccess rootDirectory
            ("Listed " ++ Js.numberToString (Z.of_nat (length files)) ++ " files in "
                       ++ (if Js.truthy directory then directory
                           else if hasDirectoryAccess then FAM.getRootDirectoryName w
                                else "selected directory")
                       ++ ".")))
    (fun e => ret (ReplyError ("Failed to list files: " ++ e))).

Definition listDirectories : M Reply :=
  tryCatch
    (directories <- FAM.getStoredDirectories ;;
     ret (ReplyDirectoryList directories
            ("Listed " ++ Js.numberToString (Z.of_nat (length directories))
                       ++ " stored directories.")))
    (fun e => ret (ReplyError ("Failed to list directories: " ++ e))).

Definition switchDirectory (args : option Args) : M Reply :=
  tryCatch
    (match given args arg_id with
     | None => ret (ReplyError "No directory ID provided")
     | Some id =>
         result <- FAM.switchDirectory id ;;
         ret (match result with
              | FAM.Switched directory message => ReplySwitch true message (Some directory)
              | FAM.NotSwitched message => ReplySwitch false message None
              end)
     end)
    (fun e => ret (ReplyError ("Failed to switch directory: " ++ e))).

Definition removeDirectory (args : option Args) : M Reply :=
  tryCatch
    (match given args arg_id with
     | None => ret (ReplyError "No directory ID provided")
     | Some id =>
         result <- FAM.removeDirectory id ;;
         ret (ReplyRemove (FAM.rr_success result) (FAM.rr_message result))
     end)
    (fun e => ret (ReplyError ("Failed to remove directory: " ++ e))).

End FileAccessPlugin.

Module Plugin := FileAccessPlugin.

(** ** Example worlds *)

Definition quietOracle : Oracle :=
  {| queryAnswer := fun _ => Ok granted;
     requestAnswer := fun _ => Ok granted;
     directoryPick := Ok ["home"];
     openFilePick := Ok ["home"; "big.bin"];
     saveFilePick := Ok ["home"; "out.txt"];
     accessDenied := fun _ => false;
     idbError := None;
     freshId := fun n => ("dir_" ++ Js.numberToString n)%string;
     isoDate := fun n => Js.numberToString n;
     mimeType := fun _ => "";
     dataURL := fun t b => ("data:" ++ t ++ ";base64,")%string |}.

Definition homeTree : Node :=
  Dir [("home", Dir [("big.bin", File "0123456789" 7)])].

Definition freshWorld : World :=
  FAM.newWorld (FAM.constructor None (Some 1024%Z) None) quietOracle homeTree [] 100.

Definition activeWorld : World := final (DPM.requestDirectoryPermission freshWorld).

(** A host whose user refuses the permission prompt. *)
Definition refusingOracle : Oracle :=
  {| queryAnswer := fun _ => Ok prompt;
     requestAnswer := fun _ => Ok denied;
     directoryPick := directoryPick quietOracle;
     openFilePick := openFilePick quietOracle;
     saveFilePick := saveFilePick quietOracle;
     accessDenied := accessDenied quietOracle;
     idbError := None;
     freshId := freshId quietOracle;
     isoDate := isoDate quietOracle;
     mimeType := mimeType quietOracle;
     dataURL := dataURL quietOracle |}.

Definition refusedWorld : World :=
  FAM.newWorld (FAM.constructor None (Some 1024%Z) None) refusingOracle homeTree [] 100.

(** A host that grants [home] and whose user refuses any other directory. *)
Definition pickyOracle : Oracle :=
  {| queryAnswer := fun h => if list_eq_dec string_dec h ["home"] then Ok granted else Ok prompt;
     requestAnswer := fun _ => Ok denied;
     directoryPick := directoryPick quietOracle;
     openFilePick := openFilePick quietOracle;
     saveFilePick := saveFilePick quietOracle;
     accessDenied := accessDenied quietOracle;
     idbError := None;
     freshId := freshId quietOracle;
     isoDate := isoDate quietOracle;
     mimeType := mimeType quietOracle;
     dataURL := dataURL quietOracle |}.

Definition workRecord : DirRecord :=
  {| rec_id := "dir_7"; rec_name := "work"; rec_handle := ["work"]; rec_path := "work";
     rec_dateAdded := "7" |}.

(** [home] is active and [work] is stored beside it. *)
Definition twoGrantsWorld : World :=
  final (DPM.requestDirectoryPermission
           (FAM.newWorld (FAM.constructor None (Some 1024%Z) None) pickyOracle
                         (Dir [("home", Dir []); ("work", Dir [])]) [workRecord] 100)).

(** A host on which the permission query of [work] malfunctions. *)
Definition faultyOracle : Oracle :=
  {| queryAnswer := fun h => if list_eq_dec string_dec h ["work"]
                             then Throw "InvalidStateError" else Ok granted;
     requestAnswer := fun _ => Ok granted;
     directoryPick := directoryPick quietOracle;
     openFilePick := openFilePick quietOracle;
     saveFilePick := saveFilePick quietOracle;
     accessDenied := accessDenied quietOracle;
     idbError := None;
     freshId := freshId quietOracle;
     isoDate := isoDate quietOracle;
     mimeType := mimeType quietOracle;
     dataURL := dataURL quietOracle |}.

Definition faultyWorld : World :=
  FAM.newWorld (FAM.constructor None None None) faultyOracle
               (Dir [("home", Dir []); ("work", Dir [])])
               [workRecord;
                {| rec_id := "dir_9"; rec_name := "home"; rec_handle := ["home"];
                   rec_path := "home"; rec_dateAdded := "9" |}] 100.

(** [home] is active and files may hold four bytes at most. *)
Definition tightWorld : World :=
  final (DPM.requestDirectoryPermission
           (FAM.newWorld (FAM.constructor None (Some 4%Z) None) quietOracle homeTree [] 100)).

Definition bigFile : Host.FileObject :=
  {| Host.file_name := "big.bin"; Host.file_size := 10; Host.file_type := "";
     Host.file_lastModified := 7; Host.file_bytes := "0123456789" |}.

(** ** Statements about the directory tree *)

(** The tree with the node at [p] replaced by [n'] ([p] must exist). *)
Fixpoint graft (t : Node) (p : Handle) (n' : Node) : Node :=
  match p with
  | [] => n'
  | s :: p' =>
      match t with
      | Dir es => match assoc s es with
                  | Some c => Dir (upsert s (graft c p' n') es)
                  | None => t
                  end
      | File _ _ => t
      end
  end.

(** Two worlds with the same session, host answers and options. *)
Definition sameSetting (w w' : World) : Prop :=
  session w' = session w /\ oracle w' = oracle w /\ options w' = options w.

(** The entries of the child directory [name], none when it is absent. *)
Definition childEntries (es : list (string * Node)) (name : string) : list (string * Node) :=
  match assoc name es with
  | Some (Dir es') => es'
  | _ => []
  end.

(** [dir/name] can be written under a directory with entries [es]: [dir]
    is absent or a directory, in which [name] is absent or a file. *)
Definition freeForFile (es : list (string * Node)) (dir name : string) : bool :=
  match assoc dir es with
  | None => true
  | Some (Dir es') => match assoc name es' with
                      | Some (Dir _) => false
                      | _ => true
                      end
  | Some (File _ _) => false
  end.

(** The element [listFiles] builds for an entry when permission is granted. *)
Definition entryOf (directory : string) (e : string * Node) : FAM.Entry :=
  {| FAM.entry_name := fst e;
     FAM.entry_kind := Host.kindOf (snd e);
     FAM.entry_path := if Js.truthy directory
                       then Js.collapseSlashes (directory ++ "/" ++ fst e)
                       else fst e |}.

(** ** Statements about the session *)

(** The invariant as the specification words it. *)
Definition tokenIffVerifiedGrant (s : Session) : Prop :=
  rootDirectoryHandle s <> None <->
  (currentDirectoryId s <> None /\ permissionGranted s = true).

(** The invariant the operations keep. *)
Definition sessionInvariant (s : Session) : Prop :=
  (permissionGranted s = true ->
   rootDirectoryHandle s <> None /\ currentDirectoryId s <> None) /\
  (currentDirectoryId s <> None -> rootDirectoryHandle s <> None).

(** The operations of the grant manager that change the session, and the
    worlds a manager can be in: a fresh one, one after such an operation,
    or one in which the host, the store or a file operation changed
    anything but the session. *)
Inductive GrantOp : Type :=
| RequestNewGrant
| SwitchActive (id : string)
| RemoveGrant (id : string).

Definition runGrantOp (op : GrantOp) (w : World) : World :=
  match op with
  | RequestNewGrant => final (DPM.requestDirectoryPermission w)
  | SwitchActive id => final (DPM.switchDirectory id w)
  | RemoveGrant id => final (DPM.removeDirectory id w)
  end.

Inductive reachable : World -> Prop :=
| reach_new (o : Options) (orc : Oracle) (t : Node) (db : list DirRecord) (now : Z) :
    reachable (FAM.newWorld o orc t db now)
| reach_op (w : World) (op : GrantOp) :
    reachable w -> reachable (runGrantOp op w)
| reach_elsewhere (w w' : World) :
    reachable w -> session w' = session w -> reachable w'.

(** ** Statements about the listing of stored directories *)

(** What [getStoredDirectories] reports for one stored record, given the
    host's answer to the permission query on its handle. *)
Definition reportsCheck (o : Oracle) (r : DirRecord) (v : DPM.VerifiedDirectory) : Prop :=
  DPM.vd_id v = rec_id r /\ DPM.vd_name v = rec_name r /\
  DPM.vd_path v = rec_path r /\ DPM.vd_dateAdded v = rec_dateAdded r /\
  match queryAnswer o (rec_handle r) with
  | Ok p => DPM.vd_hasPermission v = isGranted p /\ DPM.vd_error v = None
  | Throw e => DPM.vd_hasPermission v = false /\ DPM.vd_error v = Some e
  end.

(** ** Statements about names and paths *)

(** [c] occurs in [s]. *)
Fixpoint hasChar (c : ascii) (s : string) : bool :=
  match s with
  | EmptyString => false
  | String d s' => Ascii.eqb d c || hasChar c s'
  end.

(** The sensitive-name test of [validateFilePath] on a path. *)
Definition mentionsSensitive (path : string) : bool :=
  existsb (fun dir => Js.includes (Js.toLowerCase (Js.backslashesToSlashes path)) dir)
          sensitiveDirectories.

(** ** Statements about the store *)

Definition isIdbOpen (e : Event) : bool :=
  match e with IdbOpen => true | _ => false end.

(** The record [storeDirectoryHandle] writes for a handle and a name. *)
Definition recordFor (w : World) (dirHandle : Handle) (name : string) : DirRecord :=
  {| rec_id := freshId (oracle w) (clock w);
     rec_name := if Js.truthy name then name else handleName dirHandle;
     rec_handle := dirHandle;
     rec_path := handleName dirHandle;
     rec_dateAdded := isoDate (oracle w) (clock w) |}.

(** The message of a store operation that fails with [e]: opening the
    database fails first when the manager is not initialized yet. *)
Definition storeFailure (w : World) (operation e : string) : string :=
  if isInitialized w then (operation ++ e)%string
  else ("Failed to initialize storage: " ++ e)%string.

(** A host whose IndexedDB fails. *)
Definition brokenStoreOracle : Oracle :=
  {| queryAnswer := queryAnswer quietOracle;
     requestAnswer := requestAnswer quietOracle;
     directoryPick := directoryPick quietOracle;
     openFilePick := openFilePick quietOracle;
     saveFilePick := saveFilePick quietOracle;
     accessDenied := accessDenied quietOracle;
     idbError := Some "QuotaExceededError";
     freshId := freshId quietOracle;
     isoDate := isoDate quietOracle;
     mimeType := mimeType quietOracle;
     dataURL := dataURL quietOracle |}.

Definition brokenStoreWorld : World :=
  FAM.newWorld (FAM.constructor None None None) brokenStoreOracle homeTree [workRecord] 100.

(** ** Statements about permissions and resolution *)

Definition isRequestPermission (e : Event) : bool :=
  match e with RequestPermission _ => true | _ => false end.

(** A path made of [n] slashes. *)
Fixpoint slashes (n : nat) : string :=
  match n with
  | O => ""
  | S n' => String "/" (slashes n')
  end.

(** Between [w] and [w'] nothing changed but the files and the clock. *)
Definition onlyFilesChanged (w w' : World) : Prop :=
  session w' = session w /\ options w' = options w /\ oracle w' = oracle w /\
  idb w' = idb w /\ isInitialized w' = isInitialized w.

(** An operation that changes nothing but the files, from any world. *)
Definition keepsAllButFiles {A : Type} (m : M A) : Prop :=
  forall w, onlyFilesChanged w (final (m w)).

(** ** Statements about reading and listing *)

(** The allow-list test of [readFile] on a file name. *)
Definition extensionAllowed (o : Options) (name : string) : bool :=
  match allowedExtensions o with
  | Some exts => existsb (String.eqb (FAM.extensionOf name)) exts
  | None => true
  end.

(** The content [readFile] returns for a file: its text, or its data URL. *)
Definition contentOf (w : World) (f : Host.FileObject) : string :=
  if isTextFile (Host.file_name f) then Host.file_bytes f
  else dataURL (oracle w) (Host.file_type f) (Host.file_bytes f).

Definition decodingCall (f : Host.FileObject) : Event :=
  if isTextFile (Host.file_name f) then Text (Host.file_name f)
  else ReadAsDataURL (Host.file_name f).

(** The element [listFiles] builds for an entry in the picker fallback. *)
Definition fallbackEntryOf (directory : string) (e : string * Node) : FAM.Entry :=
  {| FAM.entry_name := fst e;
     FAM.entry_kind := Host.kindOf (snd e);
     FAM.entry_path := Js.collapseSlashes (directory ++ "/" ++ fst e) |}.

(** ** Statements about the commands *)

(** The reply of the plugin's [switchDirectory] for an outcome of the
    directory manager's, the root directory being named [rootName]
    afterwards. *)
Definition switchReplyFor (r : Res bool) (rootName : string) : Plugin.Reply :=
  match r with
  | Ok true => Plugin.ReplySwitch true ("Switched to directory: " ++ rootName) (Some rootName)
  | Ok false => Plugin.ReplySwitch false "Failed to switch directory. Permission denied." None
  | Throw e =>
      Plugin.ReplyError ("Failed to switch directory: Failed to switch directory: " ++ e)
  end.

Definition removeReplyFor (r : Res bool) : Plugin.Reply :=
  match r with
  | Ok true => Plugin.ReplyRemove true "Directory removed successfully"
  | Ok false => Plugin.ReplyRemove false "Failed to remove directory"
  | Throw e =>
      Plugin.ReplyError ("Failed to remove directory: Failed to remove directory: " ++ e)
  end.

Definition listDirectoriesReplyFor (r : Res (list DPM.VerifiedDirectory)) : Plugin.Reply :=
  match r with
  | Ok directories =>
      Plugin.ReplyDirectoryList directories
        ("Listed " ++ Js.numberToString (Z.of_nat (length directories))
                   ++ " stored directories.")
  | Throw e =>
      Plugin.ReplyError
        ("Failed to list directories: Failed to get stored directories: " ++ e)
  end.

Definition readReplyFor (r : Res FAM.FileContent) (shownName : option string) : Plugin.Reply :=
  match r with
  | Ok c =>
      Plugin.ReplyFile (FAM.fc_content c) (FAM.fc_name c) (FAM.fc_size c)
        ("File " ++ Plugin.quote
                 ++ match shownName with Some p => p | None => FAM.fc_name c end
                 ++ Plugin.quote ++ " read successfully.")
  | Throw e => Plugin.ReplyError ("Failed to read file: " ++ e)
  end.

Definition writeReplyFor (r : Res bool) (path : string) : Plugin.Reply :=
  match r with
  | Ok _ =>
      Plugin.ReplyWritten
        ("File " ++ (if Js.truthy path then Plugin.quote ++ path ++ Plugin.quote ++ " "
                     else "")
                 ++ "written successfully.")
  | Throw e => Plugin.ReplyError ("Failed to write file: " ++ e)
  end.

Definition listReplyFor (r : Res (list FAM.Entry)) (directory : string) (w : World)
  : Plugin.Reply :=
  match r with
  | Ok files =>
      Plugin.ReplyFileList files directory (DPM.hasPermission w)
        (if DPM.hasPermission w then Some (DPM.getRootDirectoryName w) else None)
        ("Listed " ++ Js.numberToString (Z.of_nat (length files)) ++ " files in "
                   ++ (if Js.truthy directory then directory
                       else if DPM.hasPermission w then DPM.getRootDirectoryName w
                            else "selected directory")
                   ++ ".")
  | Throw e => Plugin.ReplyError ("Failed to list files: " ++ e)
  end.

Definition helloArgs : option Plugin.Args :=
  Some {| Plugin.arg_path := Some "notes/a.txt"; Plugin.arg_content := Some "hello";
          Plugin.arg_directory := None; Plugin.arg_id := None |}.

Definition onlyId (id : string) : option Plugin.Args :=
  Some {| Plugin.arg_path := None; Plugin.arg_content := None;
          Plugin.arg_directory := None; Plugin.arg_id := Some id |}.

(** * Properties *)

Ltac unfold_ops :=
  unfold DPM.requestDirectoryPermission, DPM.switchDirectory, DPM.removeDirectory,
    DPM.verifyRecord, DPM.verifyPermission,
    StorageManager.storeDirectoryHandle, StorageManager.getDirectoryHandle,
    StorageManager.removeDirectoryHandle, StorageManager.getAllDirectoryHandles,
    StorageManager.initialize,
    Host.showDirectoryPicker, Host.showOpenFilePicker, Host.queryPermission,
    Host.requestPermission, Host.getFile, Host.text, Host.readAsDataURL,
    tryCatch, bind, ret, throw, get, modify, emit, liftRes.

(** One step of symbolic execution: decide the innermost stuck test, by a
    known equation when there is one, by cases otherwise. *)
Ltac case_step :=
  match goal with
  | H : ?x = _ |- context [match ?x with _ => _ end] => rewrite H; simpl
  | |- context [match ?x with _ => _ end] =>
      lazymatch x with
      | context [match _ with _ => _ end] => fail
      | _ => destruct x eqn:?; simpl
      end
  end.

(** ** Laws of the monad *)

Lemma bind_run {A B : Type} (m : M A) (f : A -> M B) (w w1 : World) (a : A)
      (t1 : list Event) :
  m w = mkOutcome (Ok a) w1 t1 ->
  bind m f w = mkOutcome (result (f a w1)) (final (f a w1)) (t1 ++ calls (f a w1)).
Proof. intros H. unfold bind. rewrite H. destruct (f a w1); reflexivity. Qed.

Lemma bind_throw {A B : Type} (m : M A) (f : A -> M B) (w w1 : World) (e : string)
      (t1 : list Event) :
  m w = mkOutcome (Throw e) w1 t1 -> bind m f w = mkOutcome (Throw e) w1 t1.
Proof. intros H. unfold bind. rewrite H. reflexivity. Qed.

Lemma bind_final {A B : Type} (m : M A) (f : A -> M B) (w : World) :
  final (bind m f w) =
  match result (m w) with
  | Ok a => final (f a (final (m w)))
  | Throw _ => final (m w)
  end.
Proof.
  unfold bind. destruct (m w) as [[a | e] w1 t1]; simpl; [| reflexivity].
  destruct (f a w1); reflexivity.
Qed.

Lemma bind_calls {A B : Type} (m : M A) (f : A -> M B) (w : World) :
  calls (bind m f w) =
  calls (m w) ++ match result (m w) with
                 | Ok a => calls (f a (final (m w)))
                 | Throw _ => []
                 end.
Proof.
  unfold bind. destruct (m w) as [[a | e] w1 t1]; simpl.
  - destruct (f a w1); reflexivity.
  - rewrite app_nil_r. reflexivity.
Qed.

Lemma bind_get {A : Type} (f : World -> M A) (w : World) : bind get f w = f w w.
Proof. unfold bind, get. destruct (f w w); reflexivity. Qed.

Lemma tryCatch_ok {A : Type} (m : M A) (h : string -> M A) (w w1 : World) (a : A)
      (t : list Event) :
  m w = mkOutcome (Ok a) w1 t -> tryCatch m h w = mkOutcome (Ok a) w1 t.
Proof. intros H. unfold tryCatch. rewrite H. reflexivity. Qed.

Lemma tryCatch_final {A : Type} (m : M A) (e' : string -> string) (w : World) :
  final (tryCatch m (fun e => throw (e' e)) w) = final (m w).
Proof. unfold tryCatch, throw. destruct (m w) as [[a | e] w1 t1]; reflexivity. Qed.

Lemma tryCatch_calls {A : Type} (m : M A) (e' : string -> string) (w : World) :
  calls (tryCatch m (fun e => throw (e' e)) w) = calls (m w).
Proof.
  unfold tryCatch, throw. destruct (m w) as [[a | e] w1 t1]; simpl; [reflexivity |].
  apply app_nil_r.
Qed.

Lemma outcome_eta {A : Type} (o : Outcome A) :
  o = mkOutcome (result o) (final o) (calls o).
Proof. destruct o; reflexivity. Qed.

Ltac run_with H := rewrite (bind_run _ _ _ _ _ _ H); cbv beta.

(** ** The session *)

Lemma sessionInvariant_initial : sessionInvariant DPM.initial.
Proof. split; simpl; intros H; [discriminate | congruence]. Qed.

Lemma request_keeps_invariant (w : World) :
  sessionInvariant (session w) ->
  sessionInvariant (session (final (DPM.requestDirectoryPermission w))).
Proof.
  intros [Hg Hid]. unfold_ops. simpl.
  repeat case_step;
    (split; simpl; intros; try split; try discriminate; try congruence; auto).
Qed.

Lemma switch_keeps_invariant (w : World) (id : string) :
  sessionInvariant (session w) ->
  sessionInvariant (session (final (DPM.switchDirectory id w))).
Proof.
  intros [Hg Hid]. unfold_ops. simpl.
  repeat case_step;
    (split; simpl; intros; try split; try discriminate; try congruence; auto;
     try (apply Hg; assumption)).
Qed.

Lemma remove_keeps_invariant (w : World) (id : string) :
  sessionInvariant (session w) ->
  sessionInvariant (session (final (DPM.removeDirectory id w))).
Proof.
  intros [Hg Hid]. unfold_ops. simpl.
  repeat case_step;
    (split; simpl; intros; try split; try discriminate; try congruence; auto;
     try (apply Hg; assumption)).
Qed.

(** C3, as amended: the session keeps, from the initial state on and
    through [requestDirectoryPermission], [switchDirectory] and
    [removeDirectory], failures included, that a granted permission comes
    with a root handle and a current id, and that a current id comes with
    a root handle. *)
Theorem C3_session_invariant_preserved (w : World) (id : string) :
  sessionInvariant DPM.initial /\
  (sessionInvariant (session w) ->
   sessionInvariant (session (final (DPM.requestDirectoryPermission w))) /\
   sessionInvariant (session (final (DPM.switchDirectory id w))) /\
   sessionInvariant (session (final (DPM.removeDirectory id w)))).
Proof.
  split; [exact sessionInvariant_initial |].
  intros H. split; [| split].
  - apply (request_keeps_invariant w H).
  - apply (switch_keeps_invariant w id H).
  - apply (remove_keeps_invariant w id H).
Qed.

(** Hence the invariant holds in every world a manager can reach. *)
Lemma reachable_sessionInvariant (w : World) :
  reachable w -> sessionInvariant (session w).
Proof.
  induction 1 as [o orc t db now | w op _ IH | w w' _ IH Hs].
  - exact sessionInvariant_initial.
  - destruct op as [| id | id]; simpl.
    + apply (request_keeps_invariant w IH).
    + apply (switch_keeps_invariant w id IH).
    + apply (remove_keeps_invariant w id IH).
  - rewrite Hs. exact IH.
Qed.

Lemma C3_session_invariant_preserved_witness :
  sessionInvariant (session freshWorld) /\
  sessionInvariant (session (final (DPM.requestDirectoryPermission freshWorld))).
Proof.
  split.
  - exact (proj1 (C3_session_invariant_preserved freshWorld "dir_100")).
  - apply (proj2 (C3_session_invariant_preserved freshWorld "dir_100")).
    exact (proj1 (C3_session_invariant_preserved freshWorld "dir_100")).
Defined.

(** C3, as stated, fails: the specification's invariant holds initially,
    and a refused permission prompt leaves a root handle behind with no
    current id and no permission. *)
Lemma C3_iff_invariant_broken :
  tokenIffVerifiedGrant (session refusedWorld) /\
  result (DPM.requestDirectoryPermission refusedWorld) = Ok false /\
  ~ tokenIffVerifiedGrant (session (final (DPM.requestDirectoryPermission refusedWorld))).
Proof.
  split; [| split].
  - split; simpl.
    + intros H; contradiction H; reflexivity.
    + intros [H _]; contradiction H; reflexivity.
  - reflexivity.
  - intros [H _]. simpl in H.
    assert (Hn : Some ["home"] <> @None Handle) by discriminate.
    destruct (H Hn) as [Hid _]. apply Hid. reflexivity.
Qed.

(** ** Switching and removing *)

Lemma find_absent (id : string) (l : list DirRecord) :
  StorageManager.hasKey id l = false ->
  find (fun r => String.eqb (rec_id r) id) l = None.
Proof.
  unfold StorageManager.hasKey. induction l as [| r l IH]; simpl; [reflexivity |].
  destruct (String.eqb (rec_id r) id); simpl; [discriminate | exact IH].
Qed.

Lemma filter_absent (id : string) (l : list DirRecord) :
  StorageManager.hasKey id l = false ->
  filter (fun r => negb (String.eqb (rec_id r) id)) l = l.
Proof.
  unfold StorageManager.hasKey. induction l as [| r l IH]; simpl; [reflexivity |].
  destruct (String.eqb (rec_id r) id); simpl; [discriminate |].
  intros H. rewrite (IH H). reflexivity.
Qed.

(** C4, as amended: for an id absent from the store [switchDirectory]
    throws (the not-found error when the store answers) and leaves the
    session as it was; and every switch that does not succeed leaves the
    root handle and the current id as they were. *)
Theorem C4_failed_switch_keeps_active_grant (w : World) (id : string) :
  (StorageManager.hasKey id (idb w) = false ->
   session (final (DPM.switchDirectory id w)) = session w /\
   (exists message, result (DPM.switchDirectory id w) = Throw message) /\
   (idbError (oracle w) = None ->
    result (DPM.switchDirectory id w) =
    Throw ("Failed to switch directory: Directory with ID " ++ id ++ " not found"))) /\
  (result (DPM.switchDirectory id w) <> Ok true ->
   rootDirectoryHandle (session (final (DPM.switchDirectory id w)))
     = rootDirectoryHandle (session w) /\
   currentDirectoryId (session (final (DPM.switchDirectory id w)))
     = currentDirectoryId (session w)).
Proof.
  split.
  - intros Habs. apply find_absent in Habs.
    unfold_ops. simpl.
    repeat case_step;
      (split; [reflexivity | split; [eexists; reflexivity | intros E; congruence]]).
  - unfold_ops. simpl.
    repeat case_step; intros H; try (split; reflexivity); exfalso; apply H; reflexivity.
Qed.

Lemma C4_failed_switch_keeps_active_grant_witness :
  session (final (DPM.switchDirectory "nope" activeWorld)) = session activeWorld /\
  rootDirectoryHandle (session (final (DPM.switchDirectory "dir_7" twoGrantsWorld)))
    = Some ["home"].
Proof.
  split.
  - apply (proj1 (C4_failed_switch_keeps_active_grant activeWorld "nope")). reflexivity.
  - apply (proj2 (C4_failed_switch_keeps_active_grant twoGrantsWorld "dir_7")).
    vm_compute. discriminate.
Defined.

(** C4, as stated, fails: switching to an unknown id does not return
    false, it throws. *)
Lemma C4_unknown_id_throws :
  StorageManager.hasKey "nope" (idb activeWorld) = false /\
  result (DPM.switchDirectory "nope" activeWorld)
    = Throw "Failed to switch directory: Directory with ID nope not found" /\
  result (DPM.switchDirectory "nope" activeWorld) <> Ok false.
Proof.
  split; [reflexivity | split; [reflexivity | ]].
  vm_compute. discriminate.
Qed.

(** A refused switch returns false and overwrites the cached permission
    of the grant that stays active. *)
Lemma refused_switch_drops_cached_permission :
  DPM.hasPermission twoGrantsWorld = true /\
  result (DPM.switchDirectory "dir_7" twoGrantsWorld) = Ok false /\
  currentDirectoryId (session (final (DPM.switchDirectory "dir_7" twoGrantsWorld)))
    = Some "dir_100" /\
  DPM.hasPermission (final (DPM.switchDirectory "dir_7" twoGrantsWorld)) = false.
Proof. repeat split. Qed.

(** C6: removing the active directory resets the session, after which
    [getFileHandle] and [createFileHandle] fail on every path for want of
    a granted directory; and removing an id the store does not hold
    returns true and leaves the store as it was. *)
Theorem C6_remove_active_clears_session (w : World) (id path : string) :
  (currentDirectoryId (session w) = Some id ->
   session (final (DPM.removeDirectory id w)) = DPM.initial /\
   result (DPM.getFileHandle path (final (DPM.removeDirectory id w)))
     = Throw DPM.msgNoPermission /\
   result (DPM.createFileHandle path (final (DPM.removeDirectory id w)))
     = Throw DPM.msgNoPermission) /\
  (idbError (oracle w) = None -> StorageManager.hasKey id (idb w) = false ->
   result (DPM.removeDirectory id w) = Ok true /\
   idb (final (DPM.removeDirectory id w)) = idb w).
Proof.
  split.
  - intros Hcur.
    assert (Hs : session (final (DPM.removeDirectory id w)) = DPM.initial).
    { unfold_ops. unfold DPM.isCurrent. rewrite Hcur, String.eqb_refl. simpl.
      repeat case_step; reflexivity. }
    split; [exact Hs | ].
    unfold DPM.getFileHandle, DPM.createFileHandle, bind, get. simpl.
    rewrite Hs. simpl. split; reflexivity.
  - intros Hdb Habs. unfold_ops. simpl.
    repeat case_step; rewrite ?(filter_absent id _ Habs); split; reflexivity.
Qed.

Lemma C6_remove_active_clears_session_witness :
  session (final (DPM.removeDirectory "dir_100" activeWorld)) = DPM.initial /\
  result (DPM.removeDirectory "dir_5" activeWorld) = Ok true.
Proof.
  split.
  - apply (proj1 (C6_remove_active_clears_session activeWorld "dir_100" "notes/a.txt")).
    reflexivity.
  - apply (proj2 (C6_remove_active_clears_session activeWorld "dir_5" "")); reflexivity.
Defined.

(** ** Listing the stored directories *)

Lemma verifyRecord_run (w : World) (r : DirRecord) :
  exists v t, DPM.verifyRecord r w = mkOutcome (Ok v) w t /\
              reportsCheck (oracle w) r v.
Proof.
  unfold reportsCheck. unfold_ops. simpl.
  destruct (queryAnswer (oracle w) (rec_handle r)) as [p | e]; simpl.
  - destruct (isGranted p) eqn:Hp; simpl;
      do 2 eexists; (split; [reflexivity |]); simpl; rewrite ?Hp; repeat split.
  - do 2 eexists; (split; [reflexivity |]); simpl; repeat split.
Qed.

Lemma forEach_verifyRecord (l : list DirRecord) (w : World) :
  exists vs t, forEach DPM.verifyRecord l w = mkOutcome (Ok vs) w t /\
               Forall2 (reportsCheck (oracle w)) l vs.
Proof.
  induction l as [| r l IH]; simpl.
  - exists [], []. split; [reflexivity | constructor].
  - destruct (verifyRecord_run w r) as [v [t [Hr Hv]]].
    destruct IH as [vs [ts [Hrs Hvs]]].
    exists (v :: vs). eexists. split; [| constructor; eassumption].
    run_with Hr. run_with Hrs. reflexivity.
Qed.

(** C7: when the store answers, [getStoredDirectories] returns normally
    with one element per stored record, in order and with the record's
    id; an element whose permission check threw has [hasPermission] false
    and carries the error message, the others carry the check's answer. *)
Theorem C7_listing_survives_failed_checks (w : World) :
  idbError (oracle w) = None ->
  exists vs, result (DPM.getStoredDirectories w) = Ok vs /\
             length vs = length (idb w) /\
             Forall2 (reportsCheck (oracle w)) (idb w) vs.
Proof.
  intros Hdb.
  assert (Hall : exists w' t, oracle w' = oracle w /\
                 StorageManager.getAllDirectoryHandles w = mkOutcome (Ok (idb w)) w' t).
  { unfold_ops. simpl.
    destruct (isInitialized w); simpl; rewrite Hdb; simpl; rewrite ?Hdb;
      do 2 eexists; (split; [| reflexivity]); reflexivity. }
  destruct Hall as [w' [t [Ho Hrun]]].
  destruct (forEach_verifyRecord (idb w) w') as [vs [ts [Hr Hvs]]].
  exists vs. rewrite Ho in Hvs.
  split; [| split; [symmetry; apply (Forall2_length Hvs) | exact Hvs]].
  unfold DPM.getStoredDirectories.
  rewrite (tryCatch_ok _ _ w w' vs (t ++ ts)); [reflexivity |].
  run_with Hrun. rewrite Hr. reflexivity.
Qed.

Lemma C7_listing_survives_failed_checks_witness :
  exists vs, result (DPM.getStoredDirectories faultyWorld) = Ok vs /\
             length vs = 2 /\
             Forall2 (reportsCheck faultyOracle) (idb faultyWorld) vs.
Proof. apply (C7_listing_survives_failed_checks faultyWorld). reflexivity. Defined.

(** On the faulty host the listing holds both records, the first with the
    error note. *)
Example listing_on_faulty_host :
  result (DPM.getStoredDirectories faultyWorld) =
  Ok [ {| DPM.vd_id := "dir_7"; DPM.vd_name := "work"; DPM.vd_path := "work";
          DPM.vd_hasPermission := false; DPM.vd_dateAdded := "7";
          DPM.vd_error := Some "InvalidStateError" |};
       {| DPM.vd_id := "dir_9"; DPM.vd_name := "home"; DPM.vd_path := "home";
          DPM.vd_hasPermission := true; DPM.vd_dateAdded := "9";
          DPM.vd_error := None |} ].
Proof. reflexivity. Qed.

(** ** The validator and the operations that take a path *)

(** The traversal check catches a [..] that a separator follows. *)
Lemma validate_rejects_dotdot_before_separator (path : string) (granted : bool) :
  Js.includes (Js.backslashesToSlashes path) "../" = true ->
  validateFilePath path granted = Throw msgTraversal.
Proof.
  intros H. unfold validateFilePath.
  destruct (isRootPath path) eqn:Hroot.
  - unfold isRootPath in Hroot.
    destruct (String.eqb_spec path "") as [-> |]; [discriminate H |].
    destruct (String.eqb_spec path ".") as [-> |]; [discriminate H |].
    destruct (String.eqb_spec path "./") as [-> |]; [discriminate H | discriminate Hroot].
  - unfold throwIf, Js.truthy.
    destruct (String.eqb_spec path "") as [-> |]; [discriminate H |].
    simpl. rewrite H. reflexivity.
Qed.

(** C2 fails on the code: [..] and [a/..] have a [..] segment and are
    accepted, whether or not directory access is granted. *)
Theorem C2_trailing_dotdot_accepted :
  hasDotDotSegment ".." = true /\
  validateFilePath ".." true = Ok true /\ validateFilePath ".." false = Ok true /\
  hasDotDotSegment "a/.." = true /\
  validateFilePath "a/.." true = Ok true /\ validateFilePath "a/.." false = Ok true /\
  validateFilePath "a/../b" true = Throw msgTraversal.
Proof. repeat split. Qed.

(** C1 fails on the code: with permission granted, [listFiles],
    [readFile] and [writeFile] reach the host on paths the validator
    rejects, and the validator is not entered. *)
Theorem C1_granted_operations_skip_validator :
  DPM.hasPermission activeWorld = true /\
  (validateFilePath "/" true = Throw msgRelativeOnly /\
   result (FAM.listFiles "/" activeWorld)
     = Ok [ {| FAM.entry_name := "big.bin"; FAM.entry_kind := Host.file;
               FAM.entry_path := "/big.bin" |} ] /\
   calls (FAM.listFiles "/" activeWorld) = [Values ["home"]]) /\
  (validateFilePath "../x" true = Throw msgTraversal /\
   calls (FAM.readFile "../x" activeWorld) = [GetDirectoryHandle ["home"] ".." false]) /\
  (validateFilePath "system/x.txt" true = Throw msgSensitive /\
   result (FAM.writeFile "system/x.txt" "hi" activeWorld) = Ok true /\
   calls (FAM.writeFile "system/x.txt" "hi" activeWorld)
     = [GetDirectoryHandle ["home"] "system" true;
        GetFileHandle ["home"; "system"] "x.txt" true;
        CreateWritable ["home"; "system"; "x.txt"];
        WriteStream ["home"; "system"; "x.txt"] "hi";
        CloseStream ["home"; "system"; "x.txt"]]) /\
  forallb (fun t => negb (existsb isValidate t) && existsb isFilesystemCall t)
          [calls (FAM.listFiles "/" activeWorld);
           calls (FAM.readFile "../x" activeWorld);
           calls (FAM.writeFile "system/x.txt" "hi" activeWorld)] = true.
Proof. repeat split. Qed.

(** Without permission the same paths stop at the validator. *)
Example fallback_validates_first :
  calls (FAM.listFiles "/" freshWorld) = [Validate "/" false] /\
  result (FAM.listFiles "/" freshWorld)
    = Throw "Failed to list files: Absolute paths are not allowed" /\
  calls (FAM.readFile "../x" freshWorld) = [Validate "../x" false] /\
  calls (FAM.writeFile "system/x.txt" "hi" freshWorld) = [Validate "system/x.txt" false].
Proof. repeat split. Qed.

(** ** With permission granted the validator is never entered *)

Lemma getDirectoryHandle_calls (w : World) (parent : Handle) (name : string)
      (create : bool) :
  calls (Host.getDirectoryHandle parent name create w)
    = [GetDirectoryHandle parent name create].
Proof.
  unfold Host.getDirectoryHandle. unfold_ops. simpl. repeat case_step; reflexivity.
Qed.

Lemma getFileHandle_calls (w : World) (parent : Handle) (name : string) (create : bool) :
  calls (Host.getFileHandle parent name create w) = [GetFileHandle parent name create].
Proof.
  unfold Host.getFileHandle. unfold_ops. simpl. repeat case_step; reflexivity.
Qed.

Lemma walk_never_validates (segments : list string) (create : bool) (w : World)
      (currentDir : Handle) :
  existsb isValidate (calls (DPM.walk currentDir segments create w)) = false.
Proof.
  revert w currentDir. induction segments as [| seg rest IH]; intros w currentDir; simpl.
  - reflexivity.
  - rewrite bind_calls, getDirectoryHandle_calls. simpl.
    destruct (result (Host.getDirectoryHandle currentDir seg create w)); [apply IH | reflexivity].
Qed.

Lemma fileHandleAt_never_validates (w : World) (root : Handle) (path : string)
      (create : bool) :
  existsb isValidate (calls (DPM.fileHandleAt root path create w)) = false.
Proof.
  unfold DPM.fileHandleAt.
  destruct (length (Js.segmentsOf path) =? 0)%nat; [reflexivity |].
  rewrite bind_calls, existsb_app, walk_never_validates. simpl.
  destruct (result (DPM.walk root (removelast (Js.segmentsOf path)) create w));
    [rewrite getFileHandle_calls |]; reflexivity.
Qed.

Lemma getDirectoryHandle_never_validates (w : World) (path : string) :
  existsb isValidate (calls (DPM.getDirectoryHandle path w)) = false.
Proof.
  unfold DPM.getDirectoryHandle. rewrite bind_get.
  destruct (rootDirectoryHandle (session w)) as [root |]; [| reflexivity].
  rewrite tryCatch_calls.
  destruct (negb (Js.truthy path) || String.eqb path "/" || String.eqb path ".");
    [reflexivity | apply walk_never_validates].
Qed.

Lemma getFileHandle_never_validates (w : World) (path : string) :
  existsb isValidate (calls (DPM.getFileHandle path w)) = false.
Proof.
  unfold DPM.getFileHandle. rewrite bind_get.
  destruct (rootDirectoryHandle (session w)) as [root |]; [| reflexivity].
  rewrite tryCatch_calls. apply fileHandleAt_never_validates.
Qed.

Lemma createFileHandle_never_validates (w : World) (path : string) :
  existsb isValidate (calls (DPM.createFileHandle path w)) = false.
Proof.
  unfold DPM.createFileHandle. rewrite bind_get.
  destruct (rootDirectoryHandle (session w)) as [root |]; [| reflexivity].
  rewrite tryCatch_calls. apply fileHandleAt_never_validates.
Qed.

(** What follows the resolution of the handle, in each operation, makes
    host calls only. *)
Ltac finish_calls :=
  unfold Host.values, Host.getFile, Host.text, Host.readAsDataURL,
    Host.createWritable, Host.write, Host.close;
  unfold_ops; simpl; repeat case_step; reflexivity.

(** Whatever the path, an operation that finds permission granted and a
    non-empty path ([listFiles]: any path) never enters the validator. *)
Lemma granted_operations_never_validate (w : World) (path content : string) :
  DPM.hasPermission w = true ->
  existsb isValidate (calls (FAM.listFiles path w)) = false /\
  (Js.truthy path = true ->
   existsb isValidate (calls (FAM.readFile path w)) = false /\
   existsb isValidate (calls (FAM.writeFile path content w)) = false).
Proof.
  intros Hperm. split; [| intros Hpath; split].
  - unfold FAM.listFiles. rewrite tryCatch_calls, bind_get, Hperm.
    rewrite bind_calls, existsb_app, getDirectoryHandle_never_validates. simpl.
    destruct (result (DPM.getDirectoryHandle path w)) as [h | e]; [| reflexivity].
    generalize (final (DPM.getDirectoryHandle path w)). intros w1. finish_calls.
  - unfold FAM.readFile. rewrite tryCatch_calls, bind_calls, existsb_app.
    assert (Hacq : existsb isValidate (calls (FAM.acquireFile path w)) = false).
    { unfold FAM.acquireFile. rewrite bind_get, Hperm, Hpath. simpl.
      rewrite bind_calls, existsb_app, getFileHandle_never_validates. simpl.
      destruct (result (DPM.getFileHandle path w)) as [h | e]; [| reflexivity].
      generalize (final (DPM.getFileHandle path w)). intros w1. finish_calls. }
    rewrite Hacq. simpl.
    destruct (result (FAM.acquireFile path w)) as [file | e]; [| reflexivity].
    generalize (final (FAM.acquireFile path w)). intros w1. finish_calls.
  - unfold FAM.writeFile. rewrite tryCatch_calls, bind_get, Hperm, Hpath. simpl.
    rewrite bind_calls, existsb_app, createFileHandle_never_validates. simpl.
    destruct (result (DPM.createFileHandle path w)) as [h | e]; [| reflexivity].
    generalize (final (DPM.createFileHandle path w)). intros w1. finish_calls.
Qed.

(** ** Reading with an empty path *)

(** C10: with permission granted, [readFile("")] validates the empty path
    and opens the file picker; it resolves no name under the granted
    directory, and the file it reads is the one picked. *)
Theorem C10_empty_path_read_uses_picker (w : World) :
  DPM.hasPermission w = true ->
  (exists rest, calls (FAM.readFile "" w) = Validate "" true :: OpenFilePicker :: rest) /\
  existsb isResolve (calls (FAM.readFile "" w)) = false /\
  (forall h, openFilePick (oracle w) = Ok h ->
     exists rest, calls (FAM.readFile "" w)
                  = Validate "" true :: OpenFilePicker :: GetFile h :: rest).
Proof.
  intros Hp.
  unfold FAM.readFile, FAM.acquireFile, FAM._resolvePath.
  unfold_ops. simpl. rewrite ?Hp. simpl.
  destruct (openFilePick (oracle w)) as [h | e] eqn:Hpick; simpl.
  - repeat case_step; rewrite ?Hp;
      (split; [eexists; reflexivity
              | split; [reflexivity
                       | intros h' E; injection E as <-; eexists; reflexivity]]).
  - rewrite ?Hp.
    split; [eexists; reflexivity | split; [reflexivity | intros h' E; discriminate E]].
Qed.

Lemma C10_empty_path_read_uses_picker_witness :
  existsb isResolve (calls (FAM.readFile "" activeWorld)) = false.
Proof.
  apply (C10_empty_path_read_uses_picker activeWorld). reflexivity.
Defined.

(** ** Reading: the size check comes before decoding *)

Lemma getDirectoryHandle_lookup_only (w : World) (parent : Handle) (name : string) :
  final (Host.getDirectoryHandle parent name false w) = w /\
  calls (Host.getDirectoryHandle parent name false w)
    = [GetDirectoryHandle parent name false].
Proof.
  unfold Host.getDirectoryHandle. unfold_ops. simpl.
  repeat case_step; split; reflexivity.
Qed.

Lemma getFileHandle_lookup_only (w : World) (parent : Handle) (name : string) :
  final (Host.getFileHandle parent name false w) = w /\
  calls (Host.getFileHandle parent name false w) = [GetFileHandle parent name false].
Proof.
  unfold Host.getFileHandle. unfold_ops. simpl.
  repeat case_step; split; reflexivity.
Qed.

Lemma getFile_lookup_only (w : World) (h : Handle) :
  final (Host.getFile h w) = w /\ calls (Host.getFile h w) = [GetFile h].
Proof. unfold_ops. simpl. repeat case_step; split; reflexivity. Qed.

Lemma walk_lookup_only (segments : list string) (w : World) (currentDir : Handle) :
  final (DPM.walk currentDir segments false w) = w /\
  existsb isDecode (calls (DPM.walk currentDir segments false w)) = false.
Proof.
  revert currentDir. induction segments as [| seg rest IH]; intros currentDir; simpl.
  - split; reflexivity.
  - destruct (getDirectoryHandle_lookup_only w currentDir seg) as [Hf Hc].
    rewrite bind_final, bind_calls, Hf, Hc.
    destruct (result (Host.getDirectoryHandle currentDir seg false w)) as [next | e].
    + destruct (IH next) as [IHf IHc]. split; [exact IHf |].
      simpl. exact IHc.
    + split; reflexivity.
Qed.

Lemma getFileHandle_no_decode (w : World) (path : string) :
  final (DPM.getFileHandle path w) = w /\
  existsb isDecode (calls (DPM.getFileHandle path w)) = false.
Proof.
  unfold DPM.getFileHandle. rewrite bind_get.
  destruct (rootDirectoryHandle (session w)) as [root |]; [| split; reflexivity].
  rewrite tryCatch_final, tryCatch_calls. unfold DPM.fileHandleAt.
  destruct (length (Js.segmentsOf path) =? 0)%nat; [split; reflexivity |].
  destruct (walk_lookup_only (removelast (Js.segmentsOf path)) w root) as [Hf Hc].
  rewrite bind_final, bind_calls, Hf.
  destruct (result (DPM.walk root (removelast (Js.segmentsOf path)) false w)) as [d | e].
  - destruct (getFileHandle_lookup_only w d (last (Js.segmentsOf path) "")) as [Hf' Hc'].
    rewrite Hf', Hc', existsb_app, Hc. split; reflexivity.
  - rewrite app_nil_r. split; [reflexivity | exact Hc].
Qed.

Lemma acquireFile_no_decode (w : World) (filePath : string) :
  final (FAM.acquireFile filePath w) = w /\
  existsb isDecode (calls (FAM.acquireFile filePath w)) = false.
Proof.
  unfold FAM.acquireFile. rewrite bind_get.
  destruct (DPM.hasPermission w && Js.truthy filePath).
  - destruct (getFileHandle_no_decode w filePath) as [Hf Hc].
    rewrite bind_final, bind_calls, Hf.
    destruct (result (DPM.getFileHandle filePath w)) as [h | e].
    + destruct (getFile_lookup_only w h) as [Hf' Hc'].
      rewrite Hf', Hc', existsb_app, Hc. split; reflexivity.
    + rewrite app_nil_r. split; [reflexivity | exact Hc].
  - unfold FAM._resolvePath. unfold_ops. simpl.
    repeat case_step; split; reflexivity.
Qed.

(** C8: when the file [readFile] obtained is larger than [maxFileSize],
    [readFile] throws the size error, and none of the calls it made
    decodes content ([text] or [readAsDataURL]). *)
Theorem C8_oversized_read_fails_before_decoding
        (w : World) (filePath : string) (file : Host.FileObject) :
  result (FAM.acquireFile filePath w) = Ok file ->
  (Host.file_size file > maxFileSize (options w))%Z ->
  result (FAM.readFile filePath w)
    = Throw ("Failed to read file: " ++ FAM.msgTooLarge (maxFileSize (options w))) /\
  existsb isDecode (calls (FAM.readFile filePath w)) = false.
Proof.
  intros Hacq Hsize.
  destruct (acquireFile_no_decode w filePath) as [Hf Hc].
  pose proof (outcome_eta (FAM.acquireFile filePath w)) as Hrun.
  rewrite Hacq, Hf in Hrun.
  assert (Hgt : (Host.file_size file >? maxFileSize (options w))%Z = true)
    by (apply Z.gtb_lt; lia).
  unfold FAM.readFile, tryCatch. run_with Hrun. rewrite bind_get, Hgt.
  unfold bind at 1, throw at 1. simpl.
  split; [reflexivity |].
  rewrite !app_nil_r. exact Hc.
Qed.

Lemma C8_oversized_read_fails_before_decoding_witness :
  result (FAM.readFile "big.bin" tightWorld)
    = Throw "Failed to read file: File size exceeds maximum allowed (4 bytes)" /\
  existsb isDecode (calls (FAM.readFile "big.bin" tightWorld)) = false.
Proof.
  apply (C8_oversized_read_fails_before_decoding tightWorld "big.bin" bigFile).
  - reflexivity.
  - simpl. lia.
Defined.

(** The same through the picker, with no directory granted. *)
Example oversized_read_through_picker :
  let w := FAM.newWorld (FAM.constructor None (Some 4%Z) None) quietOracle homeTree [] 100 in
  result (FAM.readFile "" w)
    = Throw "Failed to read file: File size exceeds maximum allowed (4 bytes)" /\
  calls (FAM.readFile "" w)
    = [Validate "" false; OpenFilePicker; GetFile ["home"; "big.bin"]].
Proof. split; reflexivity. Qed.

(** ** The directory tree *)

Lemma assoc_upsert_same {A : Type} (k : string) (v : A) (l : list (string * A)) :
  assoc k (upsert k v l) = Some v.
Proof.
  induction l as [| [k' v'] l IH]; simpl.
  - rewrite String.eqb_refl. reflexivity.
  - destruct (String.eqb k k') eqn:E; simpl.
    + rewrite String.eqb_refl. reflexivity.
    + rewrite E. exact IH.
Qed.

Lemma lookup_app (p q : Handle) (t : Node) :
  lookup t (p ++ q) = match lookup t p with
                      | Some n => lookup n q
                      | None => None
                      end.
Proof.
  revert t. induction p as [| s p IH]; intros t; simpl; [reflexivity |].
  destruct t as [b m | es]; [reflexivity |].
  destruct (assoc s es); [apply IH | reflexivity].
Qed.

Lemma lookup_graft (p : Handle) (t n n' : Node) :
  lookup t p = Some n -> lookup (graft t p n') p = Some n'.
Proof.
  revert t. induction p as [| s p IH]; intros t; simpl; [reflexivity |].
  destruct t as [b m | es]; [discriminate |].
  destruct (assoc s es) as [c |] eqn:E; [| discriminate].
  intros H. simpl. rewrite assoc_upsert_same. apply (IH c H).
Qed.

(** Putting a child under an existing directory rewrites that directory. *)
Lemma put_child (p : Handle) (t : Node) (s : string) (v : Node)
      (es : list (string * Node)) :
  lookup t p = Some (Dir es) ->
  put t (p ++ [s]) v = Some (graft t p (Dir (upsert s v es))).
Proof.
  revert t. induction p as [| a p IH]; intros t; simpl.
  - intros H. injection H as ->. destruct (assoc s es); reflexivity.
  - destruct t as [b m | es0]; [discriminate |].
    destruct (assoc a es0) as [c |] eqn:E; [| discriminate].
    intros H. rewrite (IH c H). reflexivity.
Qed.

(** A child found below [p] sits in the directory found at [p]. *)
Lemma lookup_child (p : Handle) (t : Node) (s : string) (es : list (string * Node)) :
  lookup t p = Some (Dir es) -> lookup t (p ++ [s]) = assoc s es.
Proof.
  intros H. rewrite lookup_app, H. simpl. destruct (assoc s es); reflexivity.
Qed.

Lemma upsert_upsert {A : Type} (k : string) (v v' : A) (l : list (string * A)) :
  upsert k v (upsert k v' l) = upsert k v l.
Proof.
  induction l as [| [k' u] l IH]; simpl.
  - rewrite String.eqb_refl. reflexivity.
  - destruct (String.eqb k k') eqn:E; simpl.
    + rewrite String.eqb_refl. reflexivity.
    + rewrite E, IH. reflexivity.
Qed.

(** ** Runs of the host's calls on a known directory *)

Lemma sameSetting_refl (w : World) : sameSetting w w.
Proof. repeat split. Qed.

Lemma sameSetting_trans (w1 w2 w3 : World) :
  sameSetting w1 w2 -> sameSetting w2 w3 -> sameSetting w1 w3.
Proof.
  intros [A [B C]] [A' [B' C']]. repeat split; congruence.
Qed.

Lemma getDirectoryHandle_create_run (w : World) (parent : Handle) (name : string)
      (es : list (string * Node)) :
  Host.validName name = true ->
  accessDenied (oracle w) parent = false ->
  lookup (tree w) parent = Some (Dir es) ->
  match assoc name es with Some (File _ _) => False | _ => True end ->
  exists w',
    Host.getDirectoryHandle parent name true w
      = mkOutcome (Ok (parent ++ [name])) w' [GetDirectoryHandle parent name true] /\
    sameSetting w w' /\
    lookup (tree w') (parent ++ [name]) = Some (Dir (childEntries es name)).
Proof.
  intros Hname Hacc Htree Hfree.
  unfold Host.getDirectoryHandle. unfold_ops. simpl.
  rewrite Hname, Hacc, Htree. simpl. unfold childEntries.
  destruct (assoc name es) as [[b m | es'] |] eqn:E; simpl.
  - contradiction.
  - exists w. split; [reflexivity | split; [apply sameSetting_refl |]].
    rewrite (lookup_child _ _ _ _ Htree). exact E.
  - rewrite (put_child _ _ _ _ _ Htree). simpl.
    eexists. split; [reflexivity | split; [repeat split |]]. simpl.
    rewrite (lookup_child _ _ name _ (lookup_graft _ _ _ _ Htree)).
    apply assoc_upsert_same.
Qed.

Lemma getFileHandle_create_run (w : World) (parent : Handle) (name : string)
      (en : list (string * Node)) :
  Host.validName name = true ->
  accessDenied (oracle w) parent = false ->
  lookup (tree w) parent = Some (Dir en) ->
  match assoc name en with Some (Dir _) => False | _ => True end ->
  exists w' en' b m,
    Host.getFileHandle parent name true w
      = mkOutcome (Ok (parent ++ [name])) w' [GetFileHandle parent name true] /\
    sameSetting w w' /\
    lookup (tree w') parent = Some (Dir en') /\
    assoc name en' = Some (File b m) /\
    (forall v, upsert name v en' = upsert name v en).
Proof.
  intros Hname Hacc Htree Hfree.
  unfold Host.getFileHandle. unfold_ops. simpl.
  rewrite Hname, Hacc, Htree. simpl.
  destruct (assoc name en) as [[b m | es'] |] eqn:E; simpl.
  - exists w, en, b, m. repeat split; assumption.
  - contradiction.
  - rewrite (put_child _ _ _ _ _ Htree). simpl.
    eexists. exists (upsert name (File "" (clock w)) en), "", (clock w).
    split; [reflexivity | split; [repeat split |]]. simpl.
    split; [apply (lookup_graft _ _ _ _ Htree) |].
    split; [apply assoc_upsert_same | intros v; apply upsert_upsert].
Qed.

Lemma createWritable_run (w : World) (h : Handle) (b : string) (m : Z) :
  accessDenied (oracle w) h = false ->
  lookup (tree w) h = Some (File b m) ->
  Host.createWritable h w
    = mkOutcome (Ok {| Host.w_target := h; Host.w_buffer := "" |}) w [CreateWritable h].
Proof.
  intros Hacc Htree. unfold Host.createWritable. unfold_ops. simpl.
  rewrite Hacc, Htree. reflexivity.
Qed.

Lemma close_run (w : World) (parent : Handle) (name buffer : string)
      (en : list (string * Node)) :
  lookup (tree w) parent = Some (Dir en) ->
  exists w',
    Host.close {| Host.w_target := parent ++ [name]; Host.w_buffer := buffer |} w
      = mkOutcome (Ok tt) w' [CloseStream (parent ++ [name])] /\
    sameSetting w w' /\
    lookup (tree w') parent = Some (Dir (upsert name (File buffer (clock w)) en)).
Proof.
  intros Htree. unfold Host.close. unfold_ops. simpl.
  rewrite (put_child _ _ _ _ _ Htree). simpl.
  eexists. split; [reflexivity | split; [repeat split |]]. simpl.
  apply (lookup_graft _ _ _ _ Htree).
Qed.

Lemma getFile_run (w : World) (h : Handle) (b : string) (m : Z) :
  accessDenied (oracle w) h = false ->
  lookup (tree w) h = Some (File b m) ->
  Host.getFile h w
    = mkOutcome (Ok {| Host.file_name := handleName h;
                       Host.file_size := Z.of_nat (String.length b);
                       Host.file_type := mimeType (oracle w) (handleName h);
                       Host.file_lastModified := m;
                       Host.file_bytes := b |}) w [GetFile h].
Proof.
  intros Hacc Htree. unfold_ops. simpl. rewrite Hacc, Htree. reflexivity.
Qed.

Lemma values_run (w : World) (h : Handle) (es : list (string * Node)) :
  accessDenied (oracle w) h = false ->
  lookup (tree w) h = Some (Dir es) ->
  Host.values h w
    = mkOutcome (Ok (map (fun e => (fst e, Host.kindOf (snd e))) es)) w [Values h].
Proof.
  intros Hacc Htree. unfold Host.values. unfold_ops. simpl.
  rewrite Hacc, Htree. reflexivity.
Qed.

Lemma getDirectoryHandle_found_run (w : World) (parent : Handle) (name : string)
      (en : list (string * Node)) :
  Host.validName name = true ->
  accessDenied (oracle w) parent = false ->
  lookup (tree w) (parent ++ [name]) = Some (Dir en) ->
  Host.getDirectoryHandle parent name false w
    = mkOutcome (Ok (parent ++ [name])) w [GetDirectoryHandle parent name false].
Proof.
  intros Hname Hacc Htree.
  unfold Host.getDirectoryHandle. unfold_ops. simpl. rewrite Hname, Hacc. simpl.
  rewrite lookup_app in Htree.
  destruct (lookup (tree w) parent) as [[b m | es] |]; simpl in Htree; try discriminate.
  destruct (assoc name es) as [[b m | es'] |]; try discriminate. reflexivity.
Qed.

Lemma getFileHandle_found_run (w : World) (parent : Handle) (name : string)
      (b : string) (m : Z) :
  Host.validName name = true ->
  accessDenied (oracle w) parent = false ->
  lookup (tree w) (parent ++ [name]) = Some (File b m) ->
  Host.getFileHandle parent name false w
    = mkOutcome (Ok (parent ++ [name])) w [GetFileHandle parent name false].
Proof.
  intros Hname Hacc Htree.
  unfold Host.getFileHandle. unfold_ops. simpl. rewrite Hname, Hacc. simpl.
  rewrite lookup_app in Htree.
  destruct (lookup (tree w) parent) as [[b' m' | es] |]; simpl in Htree; try discriminate.
  destruct (assoc name es) as [[b' m' | es'] |]; try discriminate. reflexivity.
Qed.

(** ** Writing, reading and listing under the granted directory *)

Lemma hasPermission_of_session (w : World) (root : Handle) :
  rootDirectoryHandle (session w) = Some root ->
  permissionGranted (session w) = true ->
  DPM.hasPermission w = true.
Proof. intros Hr Hg. unfold DPM.hasPermission. rewrite Hr. exact Hg. Qed.

Lemma write_run (w : World) (h : Handle) (content : string) :
  Host.write {| Host.w_target := h; Host.w_buffer := "" |} content w
  = mkOutcome (Ok {| Host.w_target := h; Host.w_buffer := content |}) w
              [WriteStream h content].
Proof. reflexivity. Qed.

Lemma createFileHandle_run (w : World) (root : Handle) (es : list (string * Node)) :
  rootDirectoryHandle (session w) = Some root ->
  (forall h, accessDenied (oracle w) h = false) ->
  lookup (tree w) root = Some (Dir es) ->
  freeForFile es "notes" "a.txt" = true ->
  exists w' en b m,
    DPM.createFileHandle "notes/a.txt" w
      = mkOutcome (Ok ((root ++ ["notes"]) ++ ["a.txt"])) w'
                  [GetDirectoryHandle root "notes" true;
                   GetFileHandle (root ++ ["notes"]) "a.txt" true] /\
    sameSetting w w' /\
    lookup (tree w') (root ++ ["notes"]) = Some (Dir en) /\
    assoc "a.txt" en = Some (File b m) /\
    (forall v, upsert "a.txt" v en = upsert "a.txt" v (childEntries es "notes")).
Proof.
  intros Hroot Hallow Htree Hfree.
  assert (Hdirfree : match assoc "notes" es with Some (File _ _) => False | _ => True end).
  { unfold freeForFile in Hfree.
    destruct (assoc "notes" es) as [[b m | es'] |]; [discriminate | exact I | exact I]. }
  assert (Hfilefree : match assoc "a.txt" (childEntries es "notes") with
                      | Some (Dir _) => False | _ => True end).
  { unfold freeForFile in Hfree. unfold childEntries.
    destruct (assoc "notes" es) as [[b m | es'] |]; simpl; try exact I.
    destruct (assoc "a.txt" es') as [[b m | es''] |]; [exact I | discriminate | exact I]. }
  destruct (getDirectoryHandle_create_run w root "notes" es eq_refl (Hallow root)
              Htree Hdirfree) as [w1 [Hrun1 [Hsame1 Htree1]]].
  assert (Hallow1 : forall h, accessDenied (oracle w1) h = false).
  { intros h. destruct Hsame1 as [_ [Ho _]]. rewrite Ho. apply Hallow. }
  destruct (getFileHandle_create_run w1 (root ++ ["notes"]) "a.txt" _ eq_refl
              (Hallow1 _) Htree1 Hfilefree)
    as [w2 [en [b [m [Hrun2 [Hsame2 [Htree2 [Hfile Hups]]]]]]]].
  exists w2, en, b, m.
  split; [| split; [apply (sameSetting_trans _ _ _ Hsame1 Hsame2) | auto]].
  unfold DPM.createFileHandle. rewrite bind_get, Hroot.
  apply tryCatch_ok.
  change (DPM.fileHandleAt root "notes/a.txt" true)
    with (bind (DPM.walk root ["notes"] true)
               (fun currentDir => Host.getFileHandle currentDir "a.txt" true)).
  assert (Hwalk : DPM.walk root ["notes"] true w
                  = mkOutcome (Ok (root ++ ["notes"])) w1
                              [GetDirectoryHandle root "notes" true]).
  { simpl. run_with Hrun1. reflexivity. }
  run_with Hwalk. rewrite Hrun2. reflexivity.
Qed.

Lemma writeFile_run (w : World) (root : Handle) (es : list (string * Node))
      (content : string) :
  rootDirectoryHandle (session w) = Some root ->
  permissionGranted (session w) = true ->
  (forall h, accessDenied (oracle w) h = false) ->
  lookup (tree w) root = Some (Dir es) ->
  freeForFile es "notes" "a.txt" = true ->
  exists w' c,
    FAM.writeFile "notes/a.txt" content w
      = mkOutcome (Ok true) w'
                  [GetDirectoryHandle root "notes" true;
                   GetFileHandle (root ++ ["notes"]) "a.txt" true;
                   CreateWritable ((root ++ ["notes"]) ++ ["a.txt"]);
                   WriteStream ((root ++ ["notes"]) ++ ["a.txt"]) content;
                   CloseStream ((root ++ ["notes"]) ++ ["a.txt"])] /\
    sameSetting w w' /\
    lookup (tree w') (root ++ ["notes"])
      = Some (Dir (upsert "a.txt" (File content c) (childEntries es "notes"))).
Proof.
  intros Hroot Hgranted Hallow Htree Hfree.
  destruct (createFileHandle_run w root es Hroot Hallow Htree Hfree)
    as [w1 [en [b [m [Hrun1 [Hsame1 [Htree1 [Hfile Hups]]]]]]]].
  assert (Hallow1 : forall h, accessDenied (oracle w1) h = false).
  { intros h. destruct Hsame1 as [_ [Ho _]]. rewrite Ho. apply Hallow. }
  assert (Hfile1 : lookup (tree w1) ((root ++ ["notes"]) ++ ["a.txt"]) = Some (File b m)).
  { rewrite (lookup_child _ _ _ _ Htree1). exact Hfile. }
  pose proof (createWritable_run w1 _ b m (Hallow1 _) Hfile1) as Hrun2.
  destruct (close_run w1 (root ++ ["notes"]) "a.txt" content en Htree1)
    as [w2 [Hrun3 [Hsame2 Htree2]]].
  exists w2, (clock w1).
  split; [| split; [apply (sameSetting_trans _ _ _ Hsame1 Hsame2) |]].
  - unfold FAM.writeFile. apply tryCatch_ok. rewrite bind_get.
    rewrite (hasPermission_of_session w root Hroot Hgranted). simpl.
    run_with Hrun1. run_with Hrun2.
    rewrite (bind_run _ _ _ _ _ _ (write_run w1 _ content)). cbv beta.
    rewrite (bind_run _ _ _ _ _ _ Hrun3). reflexivity.
  - rewrite Htree2, Hups. reflexivity.
Qed.

Lemma readFile_run (w : World) (root : Handle) (en : list (string * Node))
      (b : string) (m : Z) :
  rootDirectoryHandle (session w) = Some root ->
  permissionGranted (session w) = true ->
  (forall h, accessDenied (oracle w) h = false) ->
  lookup (tree w) (root ++ ["notes"]) = Some (Dir en) ->
  assoc "a.txt" en = Some (File b m) ->
  (Z.of_nat (String.length b) <= maxFileSize (options w))%Z ->
  allowedExtensions (options w) = None ->
  FAM.readFile "notes/a.txt" w
  = mkOutcome (Ok {| FAM.fc_content := b;
                     FAM.fc_name := "a.txt";
                     FAM.fc_size := Z.of_nat (String.length b);
                     FAM.fc_type := mimeType (oracle w) "a.txt";
                     FAM.fc_lastModified := m |}) w
              [GetDirectoryHandle root "notes" false;
               GetFileHandle (root ++ ["notes"]) "a.txt" false;
               GetFile ((root ++ ["notes"]) ++ ["a.txt"]);
               Text "a.txt"].
Proof.
  intros Hroot Hgranted Hallow Htree Hfile Hsize Hext.
  assert (Hfile' : lookup (tree w) ((root ++ ["notes"]) ++ ["a.txt"]) = Some (File b m)).
  { rewrite (lookup_child _ _ _ _ Htree). exact Hfile. }
  pose proof (getDirectoryHandle_found_run w root "notes" en eq_refl (Hallow _) Htree)
    as Hrun1.
  pose proof (getFileHandle_found_run w (root ++ ["notes"]) "a.txt" b m eq_refl
                (Hallow _) Hfile') as Hrun2.
  pose proof (getFile_run w _ b m (Hallow _) Hfile') as Hrun3.
  assert (Hname : handleName ((root ++ ["notes"]) ++ ["a.txt"]) = "a.txt").
  { unfold handleName. apply last_last. }
  rewrite Hname in Hrun3.
  assert (Hhandle : DPM.getFileHandle "notes/a.txt" w
                    = mkOutcome (Ok ((root ++ ["notes"]) ++ ["a.txt"])) w
                                [GetDirectoryHandle root "notes" false;
                                 GetFileHandle (root ++ ["notes"]) "a.txt" false]).
  { unfold DPM.getFileHandle. rewrite bind_get, Hroot.
    apply tryCatch_ok.
    change (DPM.fileHandleAt root "notes/a.txt" false)
      with (bind (DPM.walk root ["notes"] false)
                 (fun currentDir => Host.getFileHandle currentDir "a.txt" false)).
    assert (Hwalk : DPM.walk root ["notes"] false w
                    = mkOutcome (Ok (root ++ ["notes"])) w
                                [GetDirectoryHandle root "notes" false]).
    { simpl. run_with Hrun1. reflexivity. }
    run_with Hwalk. rewrite Hrun2. reflexivity. }
  assert (Hacq : FAM.acquireFile "notes/a.txt" w
                 = mkOutcome (Ok {| Host.file_name := "a.txt";
                                    Host.file_size := Z.of_nat (String.length b);
                                    Host.file_type := mimeType (oracle w) "a.txt";
                                    Host.file_lastModified := m;
                                    Host.file_bytes := b |}) w
                             [GetDirectoryHandle root "notes" false;
                              GetFileHandle (root ++ ["notes"]) "a.txt" false;
                              GetFile ((root ++ ["notes"]) ++ ["a.txt"])]).
  { unfold FAM.acquireFile. rewrite bind_get.
    rewrite (hasPermission_of_session w root Hroot Hgranted). simpl.
    run_with Hhandle. rewrite Hrun3. reflexivity. }
  unfold FAM.readFile. apply tryCatch_ok.
  run_with Hacq. rewrite bind_get. simpl.
  assert (Hle : (Z.of_nat (String.length b) >? maxFileSize (options w))%Z = false).
  { rewrite Z.gtb_ltb. apply Z.ltb_ge. exact Hsize. }
  rewrite Hle, Hext. reflexivity.
Qed.

Lemma getDirectoryHandle_final (w : World) (path : string) :
  final (DPM.getDirectoryHandle path w) = w.
Proof.
  unfold DPM.getDirectoryHandle. rewrite bind_get.
  destruct (rootDirectoryHandle (session w)) as [root |]; [| reflexivity].
  rewrite tryCatch_final.
  destruct (negb (Js.truthy path) || String.eqb path "/" || String.eqb path ".");
    [reflexivity |].
  apply walk_lookup_only.
Qed.

Lemma listFiles_run (w : World) (directory : string) (h : Handle)
      (es : list (string * Node)) :
  DPM.hasPermission w = true ->
  accessDenied (oracle w) h = false ->
  result (DPM.getDirectoryHandle directory w) = Ok h ->
  lookup (tree w) h = Some (Dir es) ->
  result (FAM.listFiles directory w) = Ok (map (entryOf directory) es).
Proof.
  intros Hperm Hacc Hres Htree.
  pose proof (outcome_eta (DPM.getDirectoryHandle directory w)) as Hrun.
  rewrite Hres, getDirectoryHandle_final in Hrun.
  unfold FAM.listFiles, tryCatch. rewrite bind_get, Hperm.
  run_with Hrun. rewrite (bind_run _ _ _ _ _ _ (values_run w h es Hacc Htree)).
  simpl. rewrite map_map. reflexivity.
Qed.

Lemma getDirectoryHandle_notes_run (w : World) (root : Handle)
      (en : list (string * Node)) :
  rootDirectoryHandle (session w) = Some root ->
  accessDenied (oracle w) root = false ->
  lookup (tree w) (root ++ ["notes"]) = Some (Dir en) ->
  result (DPM.getDirectoryHandle "notes" w) = Ok (root ++ ["notes"]).
Proof.
  intros Hroot Hacc Htree.
  pose proof (getDirectoryHandle_found_run w root "notes" en eq_refl Hacc Htree) as Hrun.
  unfold DPM.getDirectoryHandle. rewrite bind_get, Hroot.
  rewrite (tryCatch_ok _ _ w w (root ++ ["notes"])
                       [GetDirectoryHandle root "notes" false]); [reflexivity |].
  change (Js.segmentsOf "notes") with ["notes"]. simpl.
  run_with Hrun. reflexivity.
Qed.

(** C9: with a directory granted, larger files allowed up to 1024 bytes and
    no extension list, on a host that honours the handles, and with
    [notes/a.txt] free to be a file, [writeFile('notes/a.txt','hello')]
    returns true and [readFile('notes/a.txt')] afterwards returns content
    [hello], name [a.txt] and size 5. *)
Theorem C9_write_then_read (w : World) (root : Handle) (es : list (string * Node)) :
  rootDirectoryHandle (session w) = Some root ->
  permissionGranted (session w) = true ->
  options w = FAM.constructor None (Some 1024%Z) None ->
  (forall h, accessDenied (oracle w) h = false) ->
  lookup (tree w) root = Some (Dir es) ->
  freeForFile es "notes" "a.txt" = true ->
  result (FAM.writeFile "notes/a.txt" "hello" w) = Ok true /\
  exists r,
    result (FAM.readFile "notes/a.txt" (final (FAM.writeFile "notes/a.txt" "hello" w)))
      = Ok r /\
    FAM.fc_content r = "hello" /\ FAM.fc_name r = "a.txt" /\ FAM.fc_size r = 5%Z.
Proof.
  intros Hroot Hgranted Hopt Hallow Htree Hfree.
  destruct (writeFile_run w root es "hello" Hroot Hgranted Hallow Htree Hfree)
    as [w' [c [Hrun [[Hs [Ho Hop]] Htree']]]].
  rewrite Hrun. simpl. split; [reflexivity |].
  assert (Hread := readFile_run w' root
             (upsert "a.txt" (File "hello" c) (childEntries es "notes")) "hello" c).
  rewrite Hread.
  - eexists. split; [reflexivity |]. simpl. repeat split.
  - rewrite Hs. exact Hroot.
  - rewrite Hs. exact Hgranted.
  - intros h. rewrite Ho. apply Hallow.
  - exact Htree'.
  - apply assoc_upsert_same.
  - rewrite Hop, Hopt. simpl. lia.
  - rewrite Hop, Hopt. reflexivity.
Qed.

Lemma C9_write_then_read_witness :
  result (FAM.writeFile "notes/a.txt" "hello" activeWorld) = Ok true /\
  exists r,
    result (FAM.readFile "notes/a.txt"
                         (final (FAM.writeFile "notes/a.txt" "hello" activeWorld))) = Ok r /\
    FAM.fc_content r = "hello" /\ FAM.fc_name r = "a.txt" /\ FAM.fc_size r = 5%Z.
Proof.
  apply (C9_write_then_read activeWorld ["home"] [("big.bin", File "0123456789" 7)]);
    reflexivity.
Defined.

(** ** Collapsing runs of slashes *)

Lemma collapseSlashes_cons (c : ascii) (t : string) :
  Js.collapseSlashes (String c t)
  = if Ascii.eqb c "/" then
      match t with
      | String c' _ => if Ascii.eqb c' "/" then Js.collapseSlashes t
                       else String "/" (Js.collapseSlashes t)
      | EmptyString => "/"
      end
    else String c (Js.collapseSlashes t).
Proof.
  cbn [Js.collapseSlashes]. destruct (Ascii.eqb c "/"); [| reflexivity].
  destruct t as [| c' t']; [reflexivity |].
  destruct c' as [[] [] [] [] [] [] [] []]; reflexivity.
Qed.

Lemma includes_slashes_cons (c : ascii) (t : string) :
  Js.includes (String c t) "//"
  = (Ascii.eqb c "/" && match t with
                        | String c' _ => Ascii.eqb c' "/"
                        | EmptyString => false
                        end) || Js.includes t "//".
Proof.
  change (Js.includes (String c t) "//")
    with (if prefix "//" (String c t) then true else Js.includes t "//").
  assert (Hp : prefix "//" (String c t)
               = Ascii.eqb c "/" && match t with
                                    | String c' _ => Ascii.eqb c' "/"
                                    | EmptyString => false
                                    end).
  { cbn [prefix]. destruct (ascii_dec "/" c) as [<- | Hc].
    - change (Ascii.eqb "/" "/") with true. cbn [andb].
      destruct t as [| c' t']; [reflexivity |]. cbn [prefix].
      destruct (ascii_dec "/" c') as [<- | Hc']; [destruct t'; reflexivity |].
      symmetry. apply Ascii.eqb_neq. congruence.
    - replace (Ascii.eqb c "/") with false; [reflexivity |].
      symmetry. apply Ascii.eqb_neq. congruence. }
  rewrite Hp. destruct (_ && _); reflexivity.
Qed.

Lemma slashes_shift (n : nat) (s : string) :
  (slashes n ++ "/" ++ s = "/" ++ slashes n ++ s)%string.
Proof. induction n as [| n IH]; simpl in *; [reflexivity | f_equal; exact IH]. Qed.

Lemma string_app_assoc (a b c : string) : ((a ++ b) ++ c = a ++ b ++ c)%string.
Proof. induction a as [| x a IH]; simpl; [reflexivity | rewrite IH; reflexivity]. Qed.

Lemma collapseSlashes_leading_run (n : nat) (b : string) :
  Js.collapseSlashes ("/" ++ slashes n ++ b) = Js.collapseSlashes ("/" ++ b).
Proof.
  induction n as [| n IH]; [reflexivity |].
  change ("/" ++ slashes (S n) ++ b)%string
    with (String "/" (String "/" (slashes n ++ b))).
  rewrite collapseSlashes_cons. exact IH.
Qed.

(** A run of slashes counts as one slash, wherever it stands. *)
Lemma collapseSlashes_run (a b : string) (n : nat) :
  Js.collapseSlashes (a ++ "/" ++ slashes n ++ b) = Js.collapseSlashes (a ++ "/" ++ b).
Proof.
  induction a as [| c a IH]; [apply collapseSlashes_leading_run |].
  change (String c a ++ "/" ++ slashes n ++ b)%string
    with (String c (a ++ "/" ++ slashes n ++ b)).
  change (String c a ++ "/" ++ b)%string with (String c (a ++ "/" ++ b)).
  rewrite !collapseSlashes_cons, IH.
  destruct (Ascii.eqb c "/"); [| reflexivity].
  destruct a as [| c' a']; reflexivity.
Qed.

(** A string without two slashes in a row is left as it is. *)
Lemma collapseSlashes_clean (s : string) :
  Js.includes s "//" = false -> Js.collapseSlashes s = s.
Proof.
  induction s as [| c t IH]; [reflexivity |].
  rewrite includes_slashes_cons, collapseSlashes_cons.
  intros H. apply orb_false_elim in H. destruct H as [Hhead Htail].
  rewrite (IH Htail).
  destruct (Ascii.eqb_spec c "/") as [-> | Hc]; [| reflexivity].
  destruct t as [| c' t']; [reflexivity |].
  simpl in Hhead. rewrite Hhead. reflexivity.
Qed.

(** The result never holds two slashes in a row. *)
Lemma collapseSlashes_no_run (s : string) :
  Js.includes (Js.collapseSlashes s) "//" = false.
Proof.
  assert (H : Js.includes (Js.collapseSlashes s) "//" = false /\
              forall c t, s = String c t ->
                          exists u, Js.collapseSlashes s = String c u /\
                                    (c = "/"%char -> forall u', u <> String "/" u')).
  { induction s as [| c t [IHi IHh]].
    - split; [reflexivity | discriminate].
    - rewrite collapseSlashes_cons.
      destruct (Ascii.eqb_spec c "/") as [-> | Hc].
      + destruct t as [| c' t'].
        * split; [reflexivity |]. intros c t [= <- <-]. exists "". split; [reflexivity |].
          discriminate.
        * destruct (IHh c' t' eq_refl) as [u [Hu Hnot]].
          destruct (Ascii.eqb_spec c' "/") as [-> | Hc'].
          -- split; [exact IHi |]. intros c t [= <- <-]. exists u. split; [exact Hu |].
             intros _. apply Hnot. reflexivity.
          -- split.
             ++ rewrite includes_slashes_cons, IHi, Hu.
                rewrite (proj2 (Ascii.eqb_neq c' "/") Hc'). reflexivity.
             ++ intros c t [= <- <-]. eexists. split; [reflexivity |].
                intros _ u'. rewrite Hu. congruence.
      + split.
        * rewrite includes_slashes_cons, IHi, (proj2 (Ascii.eqb_neq c "/") Hc). reflexivity.
        * intros c0 t0 [= <- <-]. eexists. split; [reflexivity |]. contradiction. }
  exact (proj1 H).
Qed.

Lemma truthy_app (a b : string) : Js.truthy a = true -> Js.truthy (a ++ b) = true.
Proof. destruct a; [discriminate | reflexivity]. Qed.

Lemma truthy_with_slash (a b : string) : Js.truthy (a ++ "/" ++ b) = true.
Proof. destruct a; reflexivity. Qed.

Lemma entryOf_path_run (a b : string) (n : nat) (e : string * Node) :
  FAM.entry_path (entryOf (a ++ "/" ++ slashes n ++ b) e)
  = FAM.entry_path (entryOf (a ++ "/" ++ b) e).
Proof.
  unfold entryOf. cbn [FAM.entry_path]. rewrite !truthy_with_slash.
  rewrite !string_app_assoc. apply collapseSlashes_run.
Qed.

Lemma joined_path_clean (directory name : string) (n : nat) :
  Js.includes (directory ++ "/" ++ name) "//" = false ->
  Js.collapseSlashes ((directory ++ slashes n) ++ "/" ++ name)
  = (directory ++ "/" ++ name)%string.
Proof.
  intros Hclean. rewrite string_app_assoc, slashes_shift, collapseSlashes_run.
  apply collapseSlashes_clean. exact Hclean.
Qed.

(** C5: with permission granted, [listFiles] returns one element per
    entry of the directory it resolved, with the entry's name and kind and
    with the path made of the directory, a slash and the name, runs of
    slashes collapsed (the name alone for the empty directory); and
    after [writeFile('notes/a.txt','hello')] into a [notes] that was
    absent or empty, [listFiles('notes')] returns exactly the element for
    [a.txt], a file at [notes/a.txt].  Collapsing means: the path of an
    element never holds two slashes in a row; a run of slashes in the
    directory counts as one slash; and when the directory, a slash and
    the name hold no two slashes in a row, that text is the path, also
    when the directory was given with slashes behind it. *)
Theorem C5_list_returns_entries (w : World) (directory : string) (h root : Handle)
        (es er : list (string * Node)) :
  DPM.hasPermission w = true ->
  (forall h', accessDenied (oracle w) h' = false) ->
  (result (DPM.getDirectoryHandle directory w) = Ok h ->
   lookup (tree w) h = Some (Dir es) ->
   result (FAM.listFiles directory w) = Ok (map (entryOf directory) es)) /\
  (rootDirectoryHandle (session w) = Some root ->
   lookup (tree w) root = Some (Dir er) ->
   freeForFile er "notes" "a.txt" = true ->
   childEntries er "notes" = [] ->
   result (FAM.listFiles "notes" (final (FAM.writeFile "notes/a.txt" "hello" w)))
   = Ok [ {| FAM.entry_name := "a.txt"; FAM.entry_kind := Host.file;
             FAM.entry_path := "notes/a.txt" |} ]) /\
  (forall e : string * Node,
     FAM.entry_path (entryOf "" e) = fst e /\
     (Js.truthy directory = true ->
      Js.includes (FAM.entry_path (entryOf directory e)) "//" = false) /\
     (forall (a b : string) (n : nat),
        FAM.entry_path (entryOf (a ++ "/" ++ slashes n ++ b) e)
        = FAM.entry_path (entryOf (a ++ "/" ++ b) e)) /\
     (forall n : nat,
        Js.truthy directory = true ->
        Js.includes (directory ++ "/" ++ fst e) "//" = false ->
        FAM.entry_path (entryOf (directory ++ slashes n) e)
        = (directory ++ "/" ++ fst e)%string)).
Proof.
  intros Hperm Hallow. split; [| split].
  - intros Hres Htree. apply (listFiles_run w directory h es Hperm (Hallow h) Hres Htree).
  - intros Hroot Htree Hfree Hempty.
    assert (Hgranted : permissionGranted (session w) = true).
    { unfold DPM.hasPermission in Hperm. rewrite Hroot in Hperm. exact Hperm. }
    destruct (writeFile_run w root er "hello" Hroot Hgranted Hallow Htree Hfree)
      as [w' [c [Hrun [[Hs [Ho Hop]] Htree']]]].
    rewrite Hrun, Hempty in *. simpl in *.
    assert (Hroot' : rootDirectoryHandle (session w') = Some root)
      by (rewrite Hs; exact Hroot).
    assert (Hallow' : forall h', accessDenied (oracle w') h' = false)
      by (intros h'; rewrite Ho; apply Hallow).
    rewrite (listFiles_run w' "notes" (root ++ ["notes"]) [("a.txt", File "hello" c)]).
    + reflexivity.
    + apply (hasPermission_of_session w' root Hroot'). rewrite Hs. exact Hgranted.
    + apply Hallow'.
    + apply (getDirectoryHandle_notes_run w' root _ Hroot' (Hallow' root) Htree').
    + exact Htree'.
  - intros e. split; [reflexivity | split; [| split]].
    + intros Htruthy. unfold entryOf. cbn [FAM.entry_path]. rewrite Htruthy.
      apply collapseSlashes_no_run.
    + intros a b n. apply entryOf_path_run.
    + intros n Htruthy Hclean. unfold entryOf. cbn [FAM.entry_path].
      rewrite (truthy_app _ _ Htruthy). apply joined_path_clean. exact Hclean.
Qed.

Lemma C5_list_returns_entries_witness :
  result (FAM.listFiles "" activeWorld)
    = Ok [ {| FAM.entry_name := "big.bin"; FAM.entry_kind := Host.file;
              FAM.entry_path := "big.bin" |} ] /\
  result (FAM.listFiles "notes" (final (FAM.writeFile "notes/a.txt" "hello" activeWorld)))
    = Ok [ {| FAM.entry_name := "a.txt"; FAM.entry_kind := Host.file;
              FAM.entry_path := "notes/a.txt" |} ] /\
  result (FAM.listFiles "notes//" (final (FAM.writeFile "notes/a.txt" "hello" activeWorld)))
    = Ok [ {| FAM.entry_name := "a.txt"; FAM.entry_kind := Host.file;
              FAM.entry_path := "notes/a.txt" |} ] /\
  FAM.entry_path (entryOf "/a//b///" ("c.txt", File "" 0)) = "/a/b/c.txt".
Proof.
  split; [| split; [| split]].
  - apply (proj1 (C5_list_returns_entries activeWorld "" ["home"] ["home"]
                    [("big.bin", File "0123456789" 7)]
                    [("big.bin", File "0123456789" 7)] eq_refl (fun _ => eq_refl)));
      reflexivity.
  - apply (proj1 (proj2 (C5_list_returns_entries activeWorld "" ["home"] ["home"]
                    [("big.bin", File "0123456789" 7)]
                    [("big.bin", File "0123456789" 7)] eq_refl (fun _ => eq_refl))));
      reflexivity.
  - rewrite (proj1 (C5_list_returns_entries
                      (final (FAM.writeFile "notes/a.txt" "hello" activeWorld))
                      "notes//" ["home"; "notes"] ["home"]
                      [("a.txt", File "hello" 102)] [] eq_refl (fun _ => eq_refl))
                   eq_refl eq_refl).
    reflexivity.
  - exact (eq_trans
             (proj1 (proj2 (proj2 (proj2 (proj2
                (C5_list_returns_entries activeWorld "" [] [] [] []
                   eq_refl (fun _ => eq_refl)))
                ("c.txt", File "" 0)))) "/a" "b///" 1%nat)
             (proj2 (proj2 (proj2 (proj2 (proj2
                (C5_list_returns_entries activeWorld "/a/b" [] []
                   [] [] eq_refl (fun _ => eq_refl)))
                ("c.txt", File "" 0)))) 3%nat eq_refl eq_refl)).
Defined.

(** * Further properties of the code *)

(** ** The validator *)

Lemma prefix_app (d b : string) : prefix d (d ++ b) = true.
Proof.
  induction d as [| c d IH]; simpl; [destruct b; reflexivity |].
  destruct (ascii_dec c c) as [_ | Hne]; [exact IH | contradiction Hne; reflexivity].
Qed.

Lemma includes_middle (a d b : string) : Js.includes (a ++ d ++ b) d = true.
Proof.
  induction a as [| c a IH].
  - change ("" ++ d ++ b)%string with (d ++ b)%string.
    pose proof (prefix_app d b) as H.
    destruct (d ++ b)%string as [| c r].
    + destruct d; [reflexivity | discriminate H].
    + change (Js.includes (String c r) d)
        with (if prefix d (String c r) then true else Js.includes r d).
      rewrite H. reflexivity.
  - change (Js.includes (String c a ++ d ++ b) d)
      with (if prefix d (String c (a ++ d ++ b)) then true
            else Js.includes (a ++ d ++ b) d).
    rewrite IH. destruct (prefix d (String c (a ++ d ++ b))); reflexivity.
Qed.

Lemma mapChars_app (f : ascii -> ascii) (a b : string) :
  Js.mapChars f (a ++ b) = (Js.mapChars f a ++ Js.mapChars f b)%string.
Proof. induction a as [| c a IH]; simpl; [| rewrite IH]; reflexivity. Qed.

Lemma prefix_hasChar (c : ascii) (p s : string) :
  prefix p s = true -> hasChar c p = true -> hasChar c s = true.
Proof.
  revert s. induction p as [| a p IH]; intros s Hp Hc; [discriminate Hc |].
  destruct s as [| b s]; [discriminate Hp |].
  simpl in Hp. destruct (ascii_dec a b) as [<- | _]; [| discriminate Hp].
  simpl in *. destruct (Ascii.eqb a c); [reflexivity |]. apply (IH s Hp Hc).
Qed.

Lemma includes_hasChar (c : ascii) (p s : string) :
  Js.includes s p = true -> hasChar c p = true -> hasChar c s = true.
Proof.
  intros Hi Hc. induction s as [| d s IH].
  - simpl in Hi. destruct p; [discriminate Hc | discriminate Hi].
  - change (Js.includes (String d s) p)
      with (if prefix p (String d s) then true else Js.includes s p) in Hi.
    destruct (prefix p (String d s)) eqn:Hp.
    + apply (prefix_hasChar c p _ Hp Hc).
    + simpl. rewrite (IH Hi). apply orb_true_r.
Qed.

Lemma normalized_has_no_backslash (path : string) :
  hasChar "\" (Js.backslashesToSlashes path) = false.
Proof.
  unfold Js.backslashesToSlashes.
  induction path as [| c path IH]; [reflexivity |].
  simpl. rewrite IH, orb_false_r.
  destruct (Ascii.eqb c "\") eqn:E; [reflexivity | exact E].
Qed.

(** After the backslashes were replaced, the second traversal test
    ([includes('..\\')]) can never hold. *)
Lemma normalized_has_no_dotdot_backslash (path : string) :
  Js.includes (Js.backslashesToSlashes path) "..\" = false.
Proof.
  destruct (Js.includes (Js.backslashesToSlashes path) "..\") eqn:E; [| reflexivity].
  pose proof (includes_hasChar "\" "..\" _ E eq_refl) as H.
  rewrite normalized_has_no_backslash in H. discriminate H.
Qed.

Lemma rootPath_cases (path : string) :
  isRootPath path = true -> path = "" \/ path = "." \/ path = "./".
Proof.
  unfold isRootPath. intros H.
  destruct (String.eqb_spec path ""); [auto |].
  destruct (String.eqb_spec path "."); [auto |].
  destruct (String.eqb_spec path "./"); [auto | discriminate H].
Qed.

(** The decision of the validator on a path that is not one of the three
    root forms. *)
Lemma validate_not_root (path : string) (g : bool) :
  isRootPath path = false ->
  validateFilePath path g =
  if Js.includes (Js.backslashesToSlashes path) "../" then Throw msgTraversal
  else if isAbsolute (Js.backslashesToSlashes path)
       then Throw (if g then msgRelativeOnly else msgAbsolute)
       else if mentionsSensitive path then Throw msgSensitive else Ok true.
Proof.
  intros Hroot. unfold validateFilePath, throwIf, mentionsSensitive. rewrite Hroot.
  assert (Htruthy : Js.truthy path = true).
  { unfold Js.truthy. unfold isRootPath in Hroot.
    destruct (String.eqb path ""); [discriminate Hroot | reflexivity]. }
  rewrite Htruthy, normalized_has_no_dotdot_backslash. simpl.
  destruct (Js.includes (Js.backslashesToSlashes path) "../"); simpl; [reflexivity |].
  destruct g; destruct (isAbsolute (Js.backslashesToSlashes path)); reflexivity.
Qed.

(** X1: a path in which [..] is followed by a separator, forward or
    backward, is rejected as a traversal, whatever surrounds it and
    whatever the grant state. *)
Theorem X1_dotdot_before_separator_rejected (a b : string) (g : bool) :
  validateFilePath (a ++ "../" ++ b) g = Throw msgTraversal /\
  validateFilePath (a ++ "..\" ++ b) g = Throw msgTraversal.
Proof.
  split; apply validate_rejects_dotdot_before_separator;
    unfold Js.backslashesToSlashes; rewrite !mapChars_app;
    apply (includes_middle _ "../").
Qed.

(** X2: a path whose normalized form starts with [/] or with a drive
    letter and a colon is rejected: as a traversal when it also holds
    [../], else with the message for the grant state, [msgRelativeOnly]
    with a grant and [msgAbsolute] without. *)
Theorem X2_absolute_path_rejected (path : string) (g : bool) :
  isAbsolute (Js.backslashesToSlashes path) = true ->
  validateFilePath path g =
  Throw (if Js.includes (Js.backslashesToSlashes path) "../" then msgTraversal
         else if g then msgRelativeOnly else msgAbsolute).
Proof.
  intros Habs.
  assert (Hroot : isRootPath path = false).
  { destruct (isRootPath path) eqn:E; [| reflexivity].
    destruct (rootPath_cases path E) as [-> | [-> | ->]]; discriminate Habs. }
  rewrite (validate_not_root path g Hroot), Habs.
  destruct (Js.includes (Js.backslashesToSlashes path) "../"); reflexivity.
Qed.

Lemma X2_absolute_path_rejected_witness :
  validateFilePath "\Users\me" true = Throw msgRelativeOnly /\
  validateFilePath "C:/tmp/../x" false = Throw msgTraversal.
Proof.
  split.
  - apply (X2_absolute_path_rejected "\Users\me" true). reflexivity.
  - apply (X2_absolute_path_rejected "C:/tmp/../x" false). reflexivity.
Defined.

(** X3: a path that holds one of the names of [sensitiveDirectories]
    ([system], [windows], [program files], [etc], [var]) as a substring,
    in any letter case, is never accepted; when it is neither a traversal
    nor absolute the message is [msgSensitive]. *)
Theorem X3_sensitive_substring_rejected (path : string) (g : bool) :
  mentionsSensitive path = true ->
  (exists message, validateFilePath path g = Throw message) /\
  (Js.includes (Js.backslashesToSlashes path) "../" = false ->
   isAbsolute (Js.backslashesToSlashes path) = false ->
   validateFilePath path g = Throw msgSensitive).
Proof.
  intros Hs.
  assert (Hroot : isRootPath path = false).
  { destruct (isRootPath path) eqn:E; [| reflexivity].
    destruct (rootPath_cases path E) as [-> | [-> | ->]]; discriminate Hs. }
  rewrite (validate_not_root path g Hroot), Hs. split.
  - destruct (Js.includes (Js.backslashesToSlashes path) "../");
      [| destruct (isAbsolute (Js.backslashesToSlashes path))]; eexists; reflexivity.
  - intros -> ->. reflexivity.
Qed.

Lemma X3_sensitive_substring_rejected_witness :
  validateFilePath "docs/My Variables.txt" true = Throw msgSensitive.
Proof.
  apply (X3_sensitive_substring_rejected "docs/My Variables.txt" true); reflexivity.
Defined.

(** X4: whether a path is accepted does not depend on the grant state;
    the validator never returns false, and never reports a string as an
    invalid path. *)
Theorem X4_acceptance_ignores_grant (path : string) (g : bool) :
  (validateFilePath path true = Ok true <-> validateFilePath path false = Ok true) /\
  validateFilePath path g <> Ok false /\
  validateFilePath path g <> Throw msgInvalidPath.
Proof.
  destruct (isRootPath path) eqn:Hroot.
  - unfold validateFilePath. rewrite Hroot.
    split; [split; reflexivity | split; discriminate].
  - rewrite !(validate_not_root path _ Hroot).
    destruct (Js.includes (Js.backslashesToSlashes path) "../");
      [| destruct (isAbsolute (Js.backslashesToSlashes path));
         [| destruct (mentionsSensitive path)]];
      (split; [split; intros H; try discriminate H; reflexivity |]);
      destruct g; split; discriminate.
Qed.

(** ** File names and extensions *)

Lemma string_length_app (a b : string) :
  String.length (a ++ b) = (String.length a + String.length b)%nat.
Proof. induction a as [| c a IH]; simpl; [| rewrite IH]; reflexivity. Qed.

Lemma dropChars_app (a b : string) : Js.dropChars (String.length a) (a ++ b) = b.
Proof. induction a as [| c a IH]; simpl; [destruct b; reflexivity | exact IH]. Qed.

Lemma lastIndexOfFrom_absent (c : ascii) (s : string) (i found : Z) :
  hasChar c s = false -> Js.lastIndexOfFrom c s i found = found.
Proof.
  revert i found. induction s as [| d s IH]; intros i found H; [reflexivity |].
  simpl in *. apply orb_false_elim in H. destruct H as [Hd Hs].
  rewrite Hd. apply (IH _ _ Hs).
Qed.

Lemma lastIndexOfFrom_last (c : ascii) (a b : string) (i found : Z) :
  hasChar c b = false ->
  Js.lastIndexOfFrom c (a ++ String c b) i found = (i + Z.of_nat (String.length a))%Z.
Proof.
  intros Hb. revert i found. induction a as [| d a IH]; intros i found.
  - simpl. rewrite Ascii.eqb_refl, (lastIndexOfFrom_absent c b _ _ Hb). lia.
  - simpl String.length. simpl Js.lastIndexOfFrom. rewrite IH. lia.
Qed.

Lemma getFileExtension_cases (base ext name : string) :
  (hasChar "." ext = false ->
   (Z.of_nat (String.length (base ++ "." ++ ext)) < 2 ^ 32)%Z ->
   getFileExtension (base ++ "." ++ ext) = if String.eqb base "" then "" else ext) /\
  (hasChar "." name = false ->
   (Z.of_nat (String.length name) < 2 ^ 32)%Z ->
   getFileExtension name = "").
Proof.
  split.
  - intros Hext Hlen. unfold getFileExtension, Js.lastIndexOf.
    change (base ++ "." ++ ext)%string with (base ++ String "." ext)%string in *.
    rewrite (lastIndexOfFrom_last "." base ext 0 (-1) Hext).
    rewrite string_length_app in Hlen. simpl String.length in Hlen.
    unfold Js.toUint32, Js.slice. rewrite string_length_app. simpl String.length.
    destruct base as [| c base].
    + simpl String.length. change (0 + Z.of_nat 0 - 1)%Z with (-1)%Z.
      change ((-1) mod 2 ^ 32 + 2)%Z with (2 ^ 32 + 1)%Z.
      destruct (Z.leb_spec (Z.of_nat (0 + S (String.length ext))) (2 ^ 32 + 1));
        [reflexivity | simpl String.length in *; lia].
    + simpl String.eqb. simpl String.length in *.
      rewrite Z.mod_small by lia.
      replace (0 + Z.of_nat (S (String.length base)) - 1 + 2)%Z
        with (Z.of_nat (String.length (String c base ++ "."))) by
          (rewrite string_length_app; simpl String.length; lia).
      rewrite Nat2Z.id.
      destruct (Z.leb_spec (Z.of_nat (S (String.length base) + S (String.length ext)))
                           (Z.of_nat (String.length (String c base ++ ".")))) as [Hle | Hgt].
      * rewrite string_length_app in Hle. simpl String.length in Hle.
        destruct ext; [reflexivity | simpl String.length in Hle; lia].
      * replace (String c base ++ String "." ext)%string
          with ((String c base ++ ".") ++ ext)%string.
        -- apply dropChars_app.
        -- clear. induction (String c base) as [| d s IH]; simpl; [| rewrite IH]; reflexivity.
  - intros Hname Hlen. unfold getFileExtension, Js.lastIndexOf.
    rewrite (lastIndexOfFrom_absent "." name 0 (-1) Hname).
    unfold Js.toUint32, Js.slice. change ((-1 - 1) mod 2 ^ 32 + 2)%Z with (2 ^ 32)%Z.
    destruct (Z.leb_spec (Z.of_nat (String.length name)) (2 ^ 32)); [reflexivity | lia].
Qed.

(** X5: for a name [base.ext] whose [ext] holds no dot, [getFileExtension]
    gives [ext] when [base] is not empty and the empty string when it is
    (a name such as [.bashrc]); a name with no dot has the empty
    extension.  Names are shorter than 2^32 characters. *)
Theorem X5_extension_after_last_dot (base ext name : string) :
  (hasChar "." ext = false ->
   (Z.of_nat (String.length (base ++ "." ++ ext)) < 2 ^ 32)%Z ->
   getFileExtension (base ++ "." ++ ext) = if String.eqb base "" then "" else ext) /\
  (hasChar "." name = false ->
   (Z.of_nat (String.length name) < 2 ^ 32)%Z ->
   getFileExtension name = "").
Proof. exact (getFileExtension_cases base ext name). Qed.

Lemma X5_extension_after_last_dot_witness :
  getFileExtension "archive.tar.GZ" = "GZ" /\ getFileExtension "Makefile" = "".
Proof.
  split.
  - apply (proj1 (X5_extension_after_last_dot "archive.tar" "GZ" "")); [reflexivity |].
    simpl. lia.
  - apply (proj2 (X5_extension_after_last_dot "" "" "Makefile")); [reflexivity |].
    simpl. lia.
Defined.

(** X6: [isTextFile] looks only at the lower-cased text after the last
    dot: [base.ext] with a non-empty [base] is text exactly when that text
    is in the table, and a name without a dot, or one that starts with
    its only dot, is never text (it is read as a data URL). *)
Theorem X6_text_classification (base ext name : string) :
  (hasChar "." ext = false ->
   (Z.of_nat (String.length (base ++ "." ++ ext)) < 2 ^ 32)%Z ->
   isTextFile (base ++ "." ++ ext)
   = negb (String.eqb base "")
     && existsb (String.eqb (Js.toLowerCase ext)) textExtensions) /\
  (hasChar "." name = false ->
   (Z.of_nat (String.length name) < 2 ^ 32)%Z ->
   isTextFile name = false).
Proof.
  split.
  - intros Hext Hlen. unfold isTextFile.
    rewrite (proj1 (getFileExtension_cases base ext "") Hext Hlen).
    destruct (String.eqb base ""); reflexivity.
  - intros Hname Hlen. unfold isTextFile.
    rewrite (proj2 (getFileExtension_cases "" "" name) Hname Hlen). reflexivity.
Qed.

Lemma X6_text_classification_witness :
  isTextFile "Notes.TXT" = true /\ isTextFile ".txt" = false /\ isTextFile "README" = false.
Proof.
  split; [| split].
  - apply (proj1 (X6_text_classification "Notes" "TXT" "")); [reflexivity | simpl; lia].
  - apply (proj1 (X6_text_classification "" "txt" "")); [reflexivity | simpl; lia].
  - apply (proj2 (X6_text_classification "" "" "README")); [reflexivity | simpl; lia].
Defined.

Lemma split_absent (sep : ascii) (s : string) :
  hasChar sep s = false -> Js.split sep s = [s].
Proof.
  induction s as [| c s IH]; intros H; [reflexivity |].
  simpl in *. apply orb_false_elim in H. destruct H as [Hc Hs].
  rewrite Hc, (IH Hs). reflexivity.
Qed.

Lemma split_after_separator (sep : ascii) (a b : string) :
  exists h t, Js.split sep (a ++ String sep b) = (h :: t) ++ Js.split sep b.
Proof.
  induction a as [| c a [h [t IH]]]; simpl.
  - rewrite Ascii.eqb_refl. exists "", []. reflexivity.
  - destruct (Ascii.eqb c sep).
    + rewrite IH. exists "", (h :: t). reflexivity.
    + rewrite IH. simpl. exists (String c h), t. reflexivity.
Qed.

Lemma last_after_prefix {A : Type} (l1 l2 : list A) (d : A) :
  l2 <> [] -> last (l1 ++ l2) d = last l2 d.
Proof.
  intros Hne. induction l1 as [| x l1 IH]; [reflexivity |].
  simpl. destruct (l1 ++ l2) eqn:E; [| exact IH].
  destruct l1; [contradiction | discriminate E].
Qed.

(** X7: the extension [readFile] checks against the allow-list is the
    lower-cased text after the last dot of the name, also for a name such
    as [.env]; for a name without a dot it is the whole lower-cased name. *)
Theorem X7_allow_list_extension (base ext name : string) :
  (hasChar "." ext = false ->
   FAM.extensionOf (base ++ "." ++ ext) = Js.toLowerCase ext) /\
  (hasChar "." name = false -> FAM.extensionOf name = Js.toLowerCase name).
Proof.
  unfold FAM.extensionOf. split.
  - intros Hext.
    change (base ++ "." ++ ext)%string with (base ++ String "." ext)%string.
    destruct (split_after_separator "." base ext) as [h [t E]]. rewrite E.
    rewrite (split_absent "." ext Hext), last_after_prefix by discriminate.
    reflexivity.
  - intros Hname. rewrite (split_absent "." name Hname). reflexivity.
Qed.

Lemma X7_allow_list_extension_witness :
  FAM.extensionOf ".ENV" = "env" /\ FAM.extensionOf "Makefile" = "makefile".
Proof.
  split.
  - apply (proj1 (X7_allow_list_extension "" "ENV" "")). reflexivity.
  - apply (proj2 (X7_allow_list_extension "" "" "Makefile")). reflexivity.
Defined.

(** ** The store of directory handles *)

Lemma find_after_absent (id : string) (l : list DirRecord) (r : DirRecord) :
  StorageManager.hasKey id l = false -> rec_id r = id ->
  find (fun x => String.eqb (rec_id x) id) (l ++ [r]) = Some r.
Proof.
  unfold StorageManager.hasKey. intros Habs Hr.
  induction l as [| x l IH]; simpl in *.
  - rewrite Hr, String.eqb_refl. reflexivity.
  - apply orb_false_elim in Habs. destruct Habs as [Hx Hl]. rewrite Hx. apply (IH Hl).
Qed.

Lemma find_in_filtered (id id' : string) (l : list DirRecord) :
  find (fun x => String.eqb (rec_id x) id')
       (filter (fun x => negb (String.eqb (rec_id x) id)) l)
  = if String.eqb id' id then None else find (fun x => String.eqb (rec_id x) id') l.
Proof.
  induction l as [| x l IH]; simpl; [destruct (String.eqb id' id); reflexivity |].
  destruct (String.eqb_spec (rec_id x) id) as [Hx | Hx]; simpl.
  - rewrite IH. destruct (String.eqb_spec id' id) as [-> | Hne]; [reflexivity |].
    destruct (String.eqb_spec (rec_id x) id') as [Hx' | _]; [congruence | reflexivity].
  - destruct (String.eqb_spec (rec_id x) id') as [Hx' | _]; [| exact IH].
    destruct (String.eqb_spec id' id) as [-> | _]; [contradiction | reflexivity].
Qed.

(** X8: when the store answers and the generated id is new,
    [storeDirectoryHandle] returns that id; the record it wrote is then
    what [getDirectoryHandle] returns for the id, and
    [getAllDirectoryHandles] returns the old records and that record, each
    as often as before and in whatever order. *)
Theorem X8_store_then_get (w : World) (dirHandle : Handle) (name : string) :
  idbError (oracle w) = None ->
  StorageManager.hasKey (freshId (oracle w) (clock w)) (idb w) = false ->
  let stored := StorageManager.storeDirectoryHandle dirHandle name w in
  result stored = Ok (freshId (oracle w) (clock w)) /\
  result (StorageManager.getDirectoryHandle (freshId (oracle w) (clock w)) (final stored))
    = Ok (Some (recordFor w dirHandle name)) /\
  exists all,
    result (StorageManager.getAllDirectoryHandles (final stored)) = Ok all /\
    Permutation all (recordFor w dirHandle name :: idb w).
Proof.
  intros Hdb Hkey.
  pose proof (find_after_absent _ (idb w) (recordFor w dirHandle name) Hkey eq_refl) as Hfind.
  unfold recordFor in *. unfold_ops. simpl.
  destruct (isInitialized w) eqn:Hi;
    repeat (progress (rewrite ?Hi, ?Hdb, ?Hkey, ?Hfind; simpl));
    (split; [reflexivity | split; [reflexivity |]]);
    (eexists; split; [reflexivity |]);
    apply Permutation_sym, Permutation_cons_append.
Qed.

Lemma X8_store_then_get_witness :
  result (StorageManager.getDirectoryHandle
            "dir_100" (final (StorageManager.storeDirectoryHandle ["home"] "" freshWorld)))
  = Ok (Some (recordFor freshWorld ["home"] "")) /\
  exists all,
    result (StorageManager.getAllDirectoryHandles
              (final (StorageManager.storeDirectoryHandle ["home"] "" faultyWorld))) = Ok all /\
    Permutation all (recordFor faultyWorld ["home"] "" :: idb faultyWorld).
Proof.
  split.
  - apply (X8_store_then_get freshWorld ["home"] ""); reflexivity.
  - apply (X8_store_then_get faultyWorld ["home"] ""); reflexivity.
Defined.

(** X9: when the store answers, [removeDirectoryHandle] returns true;
    afterwards the id is not found, every other id is found as before,
    and removing the id again changes nothing. *)
Theorem X9_remove_then_get (w : World) (id id' : string) :
  idbError (oracle w) = None ->
  let removed := StorageManager.removeDirectoryHandle id w in
  result removed = Ok true /\
  result (StorageManager.getDirectoryHandle id (final removed)) = Ok None /\
  (id' <> id ->
   result (StorageManager.getDirectoryHandle id' (final removed))
   = result (StorageManager.getDirectoryHandle id' w)) /\
  idb (final (StorageManager.removeDirectoryHandle id (final removed))) = idb (final removed).
Proof.
  intros Hdb.
  assert (Hsame : forall l : list DirRecord,
             filter (fun x => negb (String.eqb (rec_id x) id))
                    (filter (fun x => negb (String.eqb (rec_id x) id)) l)
             = filter (fun x => negb (String.eqb (rec_id x) id)) l).
  { induction l as [| x l IH]; simpl; [reflexivity |].
    destruct (negb (String.eqb (rec_id x) id)) eqn:E; simpl; rewrite ?E, IH; reflexivity. }
  unfold_ops. simpl.
  destruct (isInitialized w) eqn:Hi;
    repeat (progress (rewrite ?Hi, ?Hdb; simpl));
    rewrite !find_in_filtered, String.eqb_refl, Hsame;
    (split; [reflexivity | split; [reflexivity | split; [| reflexivity]]]);
    intros Hne; destruct (String.eqb_spec id' id); [contradiction | reflexivity
                                                   | contradiction | reflexivity].
Qed.

Lemma X9_remove_then_get_witness :
  result (StorageManager.getDirectoryHandle
            "dir_7" (final (StorageManager.removeDirectoryHandle "dir_7" faultyWorld)))
  = Ok None.
Proof.
  apply (X9_remove_then_get faultyWorld "dir_7" "dir_9"). reflexivity.
Defined.

(** X10: when IndexedDB fails with [e] on every request, the opening of
    the database included, every store operation throws and the store
    keeps its records.  On an initialized manager the message is that of
    the operation followed by [e]; on a manager not yet initialized the
    opening fails first and the message is [Failed to initialize storage: ]
    followed by [e]. *)
Theorem X10_store_failure_surfaces (w : World) (e id name : string) (dirHandle : Handle) :
  idbError (oracle w) = Some e ->
  (result (StorageManager.storeDirectoryHandle dirHandle name w)
     = Throw (storeFailure w "Failed to store directory handle: " e) /\
   idb (final (StorageManager.storeDirectoryHandle dirHandle name w)) = idb w) /\
  (result (StorageManager.getAllDirectoryHandles w)
     = Throw (storeFailure w "Failed to get directory handles: " e) /\
   idb (final (StorageManager.getAllDirectoryHandles w)) = idb w) /\
  (result (StorageManager.getDirectoryHandle id w)
     = Throw (storeFailure w "Failed to get directory handle: " e) /\
   idb (final (StorageManager.getDirectoryHandle id w)) = idb w) /\
  (result (StorageManager.removeDirectoryHandle id w)
     = Throw (storeFailure w "Failed to remove directory handle: " e) /\
   idb (final (StorageManager.removeDirectoryHandle id w)) = idb w).
Proof.
  intros Hdb. unfold storeFailure. unfold_ops. simpl.
  destruct (isInitialized w) eqn:Hi;
    repeat (progress (rewrite ?Hi, ?Hdb; simpl)); repeat split.
Qed.

Lemma X10_store_failure_surfaces_witness :
  result (StorageManager.getAllDirectoryHandles brokenStoreWorld)
  = Throw "Failed to initialize storage: QuotaExceededError".
Proof.
  exact (proj1 (proj1 (proj2
           (X10_store_failure_surfaces brokenStoreWorld "QuotaExceededError" "" "" []
                                       eq_refl)))).
Defined.

(** X11: the database is opened at most once: a store operation that
    returns normally leaves the manager initialized, and on an initialized
    manager no store operation opens the database again. *)
Theorem X11_database_opened_once (w : World) (id name : string) (dirHandle : Handle) :
  (forall r, result (StorageManager.storeDirectoryHandle dirHandle name w) = Ok r ->
     isInitialized (final (StorageManager.storeDirectoryHandle dirHandle name w)) = true) /\
  (forall r, result (StorageManager.getAllDirectoryHandles w) = Ok r ->
     isInitialized (final (StorageManager.getAllDirectoryHandles w)) = true) /\
  (forall r, result (StorageManager.getDirectoryHandle id w) = Ok r ->
     isInitialized (final (StorageManager.getDirectoryHandle id w)) = true) /\
  (forall r, result (StorageManager.removeDirectoryHandle id w) = Ok r ->
     isInitialized (final (StorageManager.removeDirectoryHandle id w)) = true) /\
  (isInitialized w = true ->
   existsb isIdbOpen (calls (StorageManager.storeDirectoryHandle dirHandle name w)) = false /\
   existsb isIdbOpen (calls (StorageManager.getAllDirectoryHandles w)) = false /\
   existsb isIdbOpen (calls (StorageManager.getDirectoryHandle id w)) = false /\
   existsb isIdbOpen (calls (StorageManager.removeDirectoryHandle id w)) = false).
Proof.
  unfold_ops. simpl.
  destruct (isInitialized w) eqn:Hi; destruct (idbError (oracle w)) eqn:Hdb;
    repeat (progress (rewrite ?Hi, ?Hdb; simpl));
    repeat case_step;
    repeat split; intros; try reflexivity; try discriminate; try assumption.
Qed.

Lemma X11_database_opened_once_witness :
  isInitialized (final (StorageManager.getAllDirectoryHandles freshWorld)) = true /\
  existsb isIdbOpen (calls (StorageManager.getDirectoryHandle "dir_100" activeWorld)) = false.
Proof.
  split.
  - apply (proj1 (proj2 (X11_database_opened_once freshWorld "" "" [])) []). reflexivity.
  - apply (proj2 (proj2 (proj2 (proj2
             (X11_database_opened_once activeWorld "dir_100" "" [])))) eq_refl).
Defined.

(** ** Requesting, listing and switching directories *)

(** X12: when [requestDirectoryPermission] returns true, the picked
    directory is the root, permission is held, and the store holds one
    record more, the one of the picked directory, whose id is the current
    id; when it returns false, no permission is held and the store is as
    it was. *)
Theorem X12_request_outcomes (w : World) :
  (result (DPM.requestDirectoryPermission w) = Ok true ->
   DPM.hasPermission (final (DPM.requestDirectoryPermission w)) = true /\
   currentDirectoryId (session (final (DPM.requestDirectoryPermission w)))
     = Some (freshId (oracle w) (clock w)) /\
   exists h, directoryPick (oracle w) = Ok h /\
             rootDirectoryHandle (session (final (DPM.requestDirectoryPermission w)))
               = Some h /\
             idb (final (DPM.requestDirectoryPermission w)) = idb w ++ [recordFor w h ""]) /\
  (result (DPM.requestDirectoryPermission w) = Ok false ->
   DPM.hasPermission (final (DPM.requestDirectoryPermission w)) = false /\
   idb (final (DPM.requestDirectoryPermission w)) = idb w).
Proof.
  unfold DPM.hasPermission, recordFor. unfold_ops. simpl.
  repeat case_step;
    (split; intros H; try discriminate H;
     repeat split; try reflexivity; try (eexists; repeat split; reflexivity)).
Qed.

Lemma X12_request_outcomes_witness :
  DPM.hasPermission (final (DPM.requestDirectoryPermission freshWorld)) = true /\
  DPM.hasPermission (final (DPM.requestDirectoryPermission refusedWorld)) = false.
Proof.
  split.
  - apply (proj1 (X12_request_outcomes freshWorld)). reflexivity.
  - apply (proj2 (X12_request_outcomes refusedWorld)). reflexivity.
Defined.

Lemma verifyRecord_quiet (w : World) (r : DirRecord) :
  final (DPM.verifyRecord r w) = w /\
  calls (DPM.verifyRecord r w) = [QueryPermission (rec_handle r)].
Proof. unfold_ops. simpl. repeat case_step; split; reflexivity. Qed.

Lemma forEach_verifyRecord_quiet (l : list DirRecord) (w : World) :
  final (forEach DPM.verifyRecord l w) = w /\
  existsb isRequestPermission (calls (forEach DPM.verifyRecord l w)) = false.
Proof.
  induction l as [| r l [IHf IHc]]; simpl; [split; reflexivity |].
  destruct (verifyRecord_quiet w r) as [Hf Hc].
  rewrite bind_final, bind_calls, Hf, Hc.
  destruct (result (DPM.verifyRecord r w)) as [v | e]; [| split; reflexivity].
  rewrite bind_final, bind_calls, IHf. simpl.
  destruct (result (forEach DPM.verifyRecord l w)) as [vs | e]; simpl;
    rewrite ?app_nil_r; split; auto.
Qed.

(** X13: [getStoredDirectories] never prompts the user: it makes no
    [requestPermission] call, whatever the store holds and the host
    answers, and it leaves the session and the stored records as they
    were. *)
Theorem X13_listing_never_prompts (w : World) :
  existsb isRequestPermission (calls (DPM.getStoredDirectories w)) = false /\
  session (final (DPM.getStoredDirectories w)) = session w /\
  idb (final (DPM.getStoredDirectories w)) = idb w.
Proof.
  unfold DPM.getStoredDirectories.
  rewrite tryCatch_calls, tryCatch_final, bind_calls, bind_final, existsb_app.
  assert (Hall : existsb isRequestPermission (calls (StorageManager.getAllDirectoryHandles w))
                 = false /\
                 session (final (StorageManager.getAllDirectoryHandles w)) = session w /\
                 idb (final (StorageManager.getAllDirectoryHandles w)) = idb w).
  { unfold_ops. simpl. repeat case_step; repeat split. }
  destruct Hall as [Hc [Hs Hi]]. rewrite Hc. simpl.
  destruct (result (StorageManager.getAllDirectoryHandles w)) as [l | e];
    [| repeat split; assumption].
  destruct (forEach_verifyRecord_quiet l (final (StorageManager.getAllDirectoryHandles w)))
    as [Hf' Hc'].
  rewrite Hf', Hc'. repeat split; assumption.
Qed.

(** X14: when [switchDirectory] returns true, the store holds a record
    with the id, and the session is exactly that record's handle, granted,
    with the id as current id; the stored records are as they were. *)
Theorem X14_switch_success (w : World) (id : string) :
  result (DPM.switchDirectory id w) = Ok true ->
  exists r, find (fun x => String.eqb (rec_id x) id) (idb w) = Some r /\
            session (final (DPM.switchDirectory id w))
            = {| rootDirectoryHandle := Some (rec_handle r);
                 permissionGranted := true;
                 currentDirectoryId := Some id |} /\
            idb (final (DPM.switchDirectory id w)) = idb w.
Proof.
  unfold_ops. simpl.
  repeat case_step; intros H; try discriminate H; eexists; repeat split.
Qed.

Lemma X14_switch_success_witness :
  exists r, find (fun x => String.eqb (rec_id x) "dir_9") (idb faultyWorld) = Some r /\
            session (final (DPM.switchDirectory "dir_9" faultyWorld))
            = {| rootDirectoryHandle := Some (rec_handle r);
                 permissionGranted := true;
                 currentDirectoryId := Some "dir_9" |} /\
            idb (final (DPM.switchDirectory "dir_9" faultyWorld)) = idb faultyWorld.
Proof. apply (X14_switch_success faultyWorld "dir_9"). reflexivity. Defined.

(** ** Resolving paths under the root *)

Lemma segmentsOf_slashes (n : nat) : Js.segmentsOf (slashes n) = [].
Proof.
  unfold Js.segmentsOf. induction n as [| n IH]; [reflexivity |].
  simpl. exact IH.
Qed.

(** X15: with a root directory set, a path made of slashes only (the empty
    path included) and the path [.] resolve as a directory to the root
    itself without any host call; as a file path, a path made of slashes
    only is refused, by [getFileHandle] and [createFileHandle] alike,
    without any host call. *)
Theorem X15_paths_without_segments (w : World) (root : Handle) (n : nat) :
  rootDirectoryHandle (session w) = Some root ->
  DPM.getDirectoryHandle (slashes n) w = mkOutcome (Ok root) w [] /\
  DPM.getDirectoryHandle "." w = mkOutcome (Ok root) w [] /\
  DPM.getFileHandle (slashes n) w
    = mkOutcome (Throw "Failed to get file handle: Invalid file path: path cannot be empty")
                w [] /\
  DPM.createFileHandle (slashes n) w
    = mkOutcome (Throw "Failed to create file handle: Invalid file path: path cannot be empty")
                w [].
Proof.
  intros Hroot.
  unfold DPM.getDirectoryHandle, DPM.getFileHandle, DPM.createFileHandle, DPM.fileHandleAt.
  rewrite !bind_get, Hroot, !segmentsOf_slashes. simpl.
  repeat split.
  unfold tryCatch.
  destruct (negb (Js.truthy (slashes n)) || String.eqb (slashes n) "/"
            || String.eqb (slashes n) "."); reflexivity.
Qed.

Lemma X15_paths_without_segments_witness :
  DPM.getDirectoryHandle "//" activeWorld = mkOutcome (Ok ["home"]) activeWorld [] /\
  result (DPM.createFileHandle "" activeWorld)
    = Throw "Failed to create file handle: Invalid file path: path cannot be empty".
Proof.
  split.
  - apply (proj1 (X15_paths_without_segments activeWorld ["home"] 2 eq_refl)).
  - destruct (X15_paths_without_segments activeWorld ["home"] 0 eq_refl) as [_ [_ [_ H]]].
    change (slashes 0) with "" in H. rewrite H. reflexivity.
Defined.

(** ** What the file operations leave alone *)

Lemma values_final (w : World) (h : Handle) : final (Host.values h w) = w.
Proof. unfold Host.values. unfold_ops. simpl. repeat case_step; reflexivity. Qed.

Lemma readFile_final (w : World) (filePath : string) : final (FAM.readFile filePath w) = w.
Proof.
  unfold FAM.readFile. rewrite tryCatch_final, bind_final.
  destruct (acquireFile_no_decode w filePath) as [Hf _]. rewrite Hf.
  destruct (result (FAM.acquireFile filePath w)) as [file | e]; [| reflexivity].
  unfold_ops. simpl. repeat case_step; reflexivity.
Qed.

Lemma listFiles_final (w : World) (directory : string) :
  final (FAM.listFiles directory w) = w.
Proof.
  unfold FAM.listFiles. rewrite tryCatch_final, bind_get.
  destruct (DPM.hasPermission w).
  - rewrite bind_final, getDirectoryHandle_final.
    destruct (result (DPM.getDirectoryHandle directory w)) as [h | e]; [| reflexivity].
    rewrite bind_final, values_final.
    destruct (result (Host.values h w)); reflexivity.
  - unfold FAM._resolvePath, Host.values. unfold_ops. simpl.
    repeat case_step; reflexivity.
Qed.

(** X16: reading and listing change nothing: after [readFile],
    [listFiles], [getFileHandle] or [getDirectoryHandle], on any path and
    with or without permission, the files, the session and the store are
    exactly as before (a directory picked in the fallback is not kept). *)
Theorem X16_reading_changes_nothing (w : World) (path : string) :
  final (FAM.readFile path w) = w /\
  final (FAM.listFiles path w) = w /\
  final (DPM.getFileHandle path w) = w /\
  final (DPM.getDirectoryHandle path w) = w.
Proof.
  split; [apply readFile_final | split; [apply listFiles_final | split]].
  - apply getFileHandle_no_decode.
  - apply getDirectoryHandle_final.
Qed.

Lemma onlyFilesChanged_refl (w : World) : onlyFilesChanged w w.
Proof. repeat split. Qed.

Lemma onlyFilesChanged_trans (w1 w2 w3 : World) :
  onlyFilesChanged w1 w2 -> onlyFilesChanged w2 w3 -> onlyFilesChanged w1 w3.
Proof.
  intros [A [B [C [D E]]]] [A' [B' [C' [D' E']]]]. repeat split; congruence.
Qed.

Lemma bind_keeps {A B : Type} (m : M A) (f : A -> M B) :
  keepsAllButFiles m -> (forall a, keepsAllButFiles (f a)) -> keepsAllButFiles (bind m f).
Proof.
  intros Hm Hf w. rewrite bind_final.
  destruct (result (m w)) as [a | e]; [| apply Hm].
  apply (onlyFilesChanged_trans _ _ _ (Hm w) (Hf a _)).
Qed.

Lemma tryCatch_keeps {A : Type} (m : M A) (e' : string -> string) :
  keepsAllButFiles m -> keepsAllButFiles (tryCatch m (fun e => throw (e' e))).
Proof. intros Hm w. rewrite tryCatch_final. apply Hm. Qed.

Lemma walk_keeps (segments : list string) (create : bool) (currentDir : Handle) :
  keepsAllButFiles (DPM.walk currentDir segments create).
Proof.
  revert currentDir. induction segments as [| seg rest IH]; intros currentDir; simpl.
  - intros w. apply onlyFilesChanged_refl.
  - apply bind_keeps; [| intros next; apply IH].
    intros w. unfold Host.getDirectoryHandle. unfold_ops. simpl.
    repeat case_step; repeat split.
Qed.

Lemma fileHandleAt_keeps (root : Handle) (path : string) (create : bool) :
  keepsAllButFiles (DPM.fileHandleAt root path create).
Proof.
  unfold DPM.fileHandleAt.
  destruct (length (Js.segmentsOf path) =? 0)%nat;
    [intros w; apply onlyFilesChanged_refl |].
  apply bind_keeps; [apply walk_keeps |].
  intros d w. unfold Host.getFileHandle. unfold_ops. simpl.
  repeat case_step; repeat split.
Qed.

Lemma createFileHandle_keeps (path : string) : keepsAllButFiles (DPM.createFileHandle path).
Proof.
  intros w. unfold DPM.createFileHandle. rewrite bind_get.
  destruct (rootDirectoryHandle (session w)); [| apply onlyFilesChanged_refl].
  apply tryCatch_keeps, fileHandleAt_keeps.
Qed.

(** X17: [writeFile] changes files only: whatever the path, the content
    and the host's answers, and whether it succeeds or throws, the
    session, the options, the stored records and the manager's
    initialization are afterwards as before. *)
Theorem X17_write_changes_only_files (w : World) (path content : string) :
  onlyFilesChanged w (final (FAM.writeFile path content w)).
Proof.
  revert w. unfold FAM.writeFile. apply tryCatch_keeps.
  intros w. rewrite bind_get. revert w.
  assert (Hrest : forall fileHandle,
             keepsAllButFiles
               (bind (Host.createWritable fileHandle)
                     (fun writable =>
                        bind (Host.write writable content)
                             (fun writable => bind (Host.close writable)
                                                   (fun _ => ret true))))).
  { intros fileHandle w.
    unfold Host.createWritable, Host.write, Host.close. unfold_ops. simpl.
    repeat case_step; repeat split. }
  intros w. destruct (DPM.hasPermission w && Js.truthy path).
  - apply bind_keeps; [apply createFileHandle_keeps | exact Hrest].
  - apply bind_keeps; [| exact Hrest].
    intros w'. unfold FAM._resolvePath, Host.showSaveFilePicker. unfold_ops. simpl.
    repeat case_step; repeat split.
Qed.

(** ** Reading: the allow-list and the content *)

Lemma acquireFile_run (w : World) (filePath : string) (file : Host.FileObject) :
  result (FAM.acquireFile filePath w) = Ok file ->
  FAM.acquireFile filePath w = mkOutcome (Ok file) w (calls (FAM.acquireFile filePath w)).
Proof.
  intros Hacq. destruct (acquireFile_no_decode w filePath) as [Hf _].
  pose proof (outcome_eta (FAM.acquireFile filePath w)) as Hrun.
  rewrite Hacq, Hf in Hrun. exact Hrun.
Qed.

(** X18: when an allow-list is configured and the extension of the file
    [readFile] obtained is not on it, [readFile] of a file within the size
    limit throws the file-type error naming the extension, and has decoded
    nothing: its calls are those that obtained the file. *)
Theorem X18_disallowed_extension_refused
        (w : World) (filePath : string) (file : Host.FileObject) :
  result (FAM.acquireFile filePath w) = Ok file ->
  (Host.file_size file <= maxFileSize (options w))%Z ->
  extensionAllowed (options w) (Host.file_name file) = false ->
  FAM.readFile filePath w
  = mkOutcome (Throw ("Failed to read file: File type ."
                        ++ FAM.extensionOf (Host.file_name file) ++ " is not allowed"))
              w (calls (FAM.acquireFile filePath w)).
Proof.
  intros Hacq Hsize Hext. pose proof (acquireFile_run w filePath file Hacq) as Hrun.
  assert (Hle : (Host.file_size file >? maxFileSize (options w))%Z = false)
    by (rewrite Z.gtb_ltb; apply Z.ltb_ge; exact Hsize).
  unfold extensionAllowed in Hext.
  unfold FAM.readFile, tryCatch. run_with Hrun. rewrite bind_get, Hle.
  destruct (allowedExtensions (options w)) as [exts |]; [| discriminate Hext].
  unfold bind, ret, throw. simpl. rewrite Hext. simpl. rewrite !app_nil_r. reflexivity.
Qed.

Lemma X18_disallowed_extension_refused_witness :
  let w := final (DPM.requestDirectoryPermission
                    (FAM.newWorld (FAM.constructor None None (Some ["txt"; "md"]))
                                  quietOracle homeTree [] 100)) in
  result (FAM.readFile "big.bin" w)
  = Throw "Failed to read file: File type .bin is not allowed".
Proof.
  intros w.
  rewrite (X18_disallowed_extension_refused w "big.bin" bigFile); try reflexivity.
  simpl. lia.
Defined.

Lemma readFile_of_acquired
        (w : World) (filePath : string) (file : Host.FileObject) :
  result (FAM.acquireFile filePath w) = Ok file ->
  (Host.file_size file <= maxFileSize (options w))%Z ->
  extensionAllowed (options w) (Host.file_name file) = true ->
  FAM.readFile filePath w
  = mkOutcome (Ok {| FAM.fc_content := contentOf w file;
                     FAM.fc_name := Host.file_name file;
                     FAM.fc_size := Host.file_size file;
                     FAM.fc_type := Host.file_type file;
                     FAM.fc_lastModified := Host.file_lastModified file |})
              w (calls (FAM.acquireFile filePath w) ++ [decodingCall file]).
Proof.
  intros Hacq Hsize Hext. pose proof (acquireFile_run w filePath file Hacq) as Hrun.
  assert (Hle : (Host.file_size file >? maxFileSize (options w))%Z = false)
    by (rewrite Z.gtb_ltb; apply Z.ltb_ge; exact Hsize).
  unfold extensionAllowed in Hext. unfold contentOf, decodingCall.
  unfold FAM.readFile, tryCatch. run_with Hrun. rewrite bind_get, Hle.
  unfold Host.text, Host.readAsDataURL, bind, ret, throw, get, emit. simpl.
  destruct (allowedExtensions (options w)) as [exts |]; simpl; rewrite ?Hext; simpl;
    destruct (isTextFile (Host.file_name file)); reflexivity.
Qed.

(** X19: when the file [readFile] obtained is within the size limit and
    passes the allow-list, [readFile] returns its name, size, type and
    modification time, with its bytes as content when [isTextFile] holds
    of the name and its data URL otherwise; one decoding call follows the
    calls that obtained the file. *)
Theorem X19_read_returns_the_file
        (w : World) (filePath : string) (file : Host.FileObject) :
  result (FAM.acquireFile filePath w) = Ok file ->
  (Host.file_size file <= maxFileSize (options w))%Z ->
  extensionAllowed (options w) (Host.file_name file) = true ->
  FAM.readFile filePath w
  = mkOutcome (Ok {| FAM.fc_content := contentOf w file;
                     FAM.fc_name := Host.file_name file;
                     FAM.fc_size := Host.file_size file;
                     FAM.fc_type := Host.file_type file;
                     FAM.fc_lastModified := Host.file_lastModified file |})
              w (calls (FAM.acquireFile filePath w) ++ [decodingCall file]).
Proof. exact (readFile_of_acquired w filePath file). Qed.

Lemma X19_read_returns_the_file_witness :
  result (FAM.readFile "big.bin" activeWorld)
  = Ok {| FAM.fc_content := "data:;base64,"; FAM.fc_name := "big.bin"; FAM.fc_size := 10;
          FAM.fc_type := ""; FAM.fc_lastModified := 7 |}.
Proof.
  rewrite (X19_read_returns_the_file activeWorld "big.bin" bigFile); try reflexivity.
  simpl. lia.
Defined.

(** ** The picker fallback *)

(** X20: without permission, a path the validator rejects stops
    [listFiles], [readFile] and [writeFile] at the validator: each throws
    the validator's message behind its own prefix, no picker is opened, no
    host call is made and nothing changes. *)
Theorem X20_fallback_stops_at_validator (w : World) (path content message : string) :
  DPM.hasPermission w = false ->
  validateFilePath path false = Throw message ->
  FAM.listFiles path w
    = mkOutcome (Throw ("Failed to list files: " ++ message)) w [Validate path false] /\
  FAM.readFile path w
    = mkOutcome (Throw ("Failed to read file: " ++ message)) w [Validate path false] /\
  FAM.writeFile path content w
    = mkOutcome (Throw ("Failed to write file: " ++ message)) w [Validate path false].
Proof.
  intros Hperm Hval.
  unfold FAM.listFiles, FAM.readFile, FAM.writeFile, FAM.acquireFile, FAM._resolvePath.
  unfold_ops. repeat (progress (rewrite ?Hperm, ?Hval; simpl)). repeat split.
Qed.

Lemma X20_fallback_stops_at_validator_witness :
  FAM.readFile "../secret" freshWorld
  = mkOutcome (Throw "Failed to read file: Directory traversal is not allowed")
              freshWorld [Validate "../secret" false].
Proof.
  apply (X20_fallback_stops_at_validator freshWorld "../secret" "" msgTraversal);
    reflexivity.
Defined.

(** X21: without permission, [listFiles] on an accepted path opens the
    directory picker once and lists the picked directory, each element's
    path being the requested directory, a slash and the name with runs of
    slashes collapsed (so [/name] for the empty directory); the picked
    directory is not kept: the world is unchanged.  Collapsing means: the
    path never holds two slashes in a row; a run of slashes in the
    directory counts as one slash; and when the directory, a slash and
    the name hold no two slashes in a row, that text is the path, also
    when the directory was given with slashes behind it. *)
Theorem X21_fallback_listing (w : World) (directory : string) (h : Handle)
        (es : list (string * Node)) :
  DPM.hasPermission w = false ->
  validateFilePath directory false = Ok true ->
  directoryPick (oracle w) = Ok h ->
  accessDenied (oracle w) h = false ->
  lookup (tree w) h = Some (Dir es) ->
  FAM.listFiles directory w
  = mkOutcome (Ok (map (fallbackEntryOf directory) es)) w
              [Validate directory false; DirectoryPicker; Values h] /\
  (forall e : string * Node,
     Js.includes (FAM.entry_path (fallbackEntryOf directory e)) "//" = false /\
     (forall (a b : string) (n : nat),
        FAM.entry_path (fallbackEntryOf (a ++ "/" ++ slashes n ++ b) e)
        = FAM.entry_path (fallbackEntryOf (a ++ "/" ++ b) e)) /\
     (forall n : nat,
        Js.includes (directory ++ "/" ++ fst e) "//" = false ->
        FAM.entry_path (fallbackEntryOf (directory ++ slashes n) e)
        = (directory ++ "/" ++ fst e)%string)).
Proof.
  intros Hperm Hval Hpick Hacc Htree. split.
  - unfold FAM.listFiles, FAM._resolvePath, Host.values. unfold_ops. simpl.
    repeat (progress (rewrite ?Hperm, ?Hval, ?Hpick, ?Hacc, ?Htree; simpl)).
    rewrite map_map. reflexivity.
  - intros e. unfold fallbackEntryOf. cbn [FAM.entry_path]. split; [| split].
    + apply collapseSlashes_no_run.
    + intros a b n. rewrite !string_app_assoc. apply collapseSlashes_run.
    + intros n Hclean. apply joined_path_clean. exact Hclean.
Qed.

Lemma X21_fallback_listing_witness :
  result (FAM.listFiles "" freshWorld)
  = Ok [ {| FAM.entry_name := "big.bin"; FAM.entry_kind := Host.file;
            FAM.entry_path := "/big.bin" |} ] /\
  result (FAM.listFiles "docs//" freshWorld)
  = Ok [ {| FAM.entry_name := "big.bin"; FAM.entry_kind := Host.file;
            FAM.entry_path := "docs/big.bin" |} ] /\
  FAM.entry_path (fallbackEntryOf "a//b///" ("c.txt", File "" 0)) = "a/b/c.txt".
Proof.
  split; [| split].
  - rewrite (proj1 (X21_fallback_listing freshWorld "" ["home"]
                      [("big.bin", File "0123456789" 7)]
                      eq_refl eq_refl eq_refl eq_refl eq_refl)).
    reflexivity.
  - rewrite (proj1 (X21_fallback_listing freshWorld "docs//" ["home"]
                      [("big.bin", File "0123456789" 7)]
                      eq_refl eq_refl eq_refl eq_refl eq_refl)).
    reflexivity.
  - exact (eq_trans
             (proj1 (proj2 (proj2 (X21_fallback_listing freshWorld "" ["home"]
                      [("big.bin", File "0123456789" 7)]
                      eq_refl eq_refl eq_refl eq_refl eq_refl)
                   ("c.txt", File "" 0))) "a" "b///" 1%nat)
             (proj2 (proj2 (proj2 (X21_fallback_listing freshWorld "a/b" ["home"]
                      [("big.bin", File "0123456789" 7)]
                      eq_refl eq_refl eq_refl eq_refl eq_refl)
                   ("c.txt", File "" 0))) 3%nat eq_refl)).
Defined.

(** ** Converting a path to a relative one *)

(** X22: with a root directory set, [tryConvertToRelativePath] strips the
    root's name as a text prefix: for a path made of that name followed by
    [rest] it gives [rest] with backslashes replaced and one leading slash
    removed, whether or not [rest] starts at a separator; without a root,
    or for the empty path, it gives nothing. *)
Theorem X22_relative_path_by_prefix (w : World) (root : Handle) (rest : string) :
  (rootDirectoryHandle (session w) = Some root ->
   Js.truthy (handleName root ++ rest) = true ->
   DPM.tryConvertToRelativePath w (handleName root ++ rest)
   = Some (if Js.startsWith (Js.backslashesToSlashes rest) "/"
           then Js.dropChars 1 (Js.backslashesToSlashes rest)
           else Js.backslashesToSlashes rest)) /\
  DPM.tryConvertToRelativePath w "" = None /\
  (rootDirectoryHandle (session w) = None ->
   DPM.tryConvertToRelativePath w rest = None).
Proof.
  unfold DPM.tryConvertToRelativePath. split; [| split].
  - intros Hroot Htruthy. rewrite Hroot, Htruthy. simpl.
    unfold Js.backslashesToSlashes, Js.startsWith.
    rewrite mapChars_app, prefix_app, dropChars_app. reflexivity.
  - destruct (rootDirectoryHandle (session w)); reflexivity.
  - intros Hroot. rewrite Hroot. reflexivity.
Qed.

Lemma X22_relative_path_by_prefix_witness :
  DPM.tryConvertToRelativePath activeWorld "home\notes\a.txt" = Some "notes/a.txt" /\
  DPM.tryConvertToRelativePath activeWorld "homework/x" = Some "work/x".
Proof.
  split.
  - apply (proj1 (X22_relative_path_by_prefix activeWorld ["home"] "\notes\a.txt"));
      reflexivity.
  - apply (proj1 (X22_relative_path_by_prefix activeWorld ["home"] "work/x")); reflexivity.
Defined.

(** ** The commands of the plugin *)

Lemma tryCatch_returns {A : Type} (m : M A) (g : string -> A) (w : World) :
  exists a, result (tryCatch m (fun e => ret (g e)) w) = Ok a.
Proof.
  unfold tryCatch, ret. destruct (m w) as [[a | e] w1 t1]; eexists; reflexivity.
Qed.

(** X23: no command of the plugin throws: whatever the arguments, the
    session and the host's answers, each of the seven commands returns a
    reply. *)
Theorem X23_commands_never_throw (args : option Plugin.Args) (w : World) :
  (exists r, result (Plugin.requestDirectoryAccess w) = Ok r) /\
  (exists r, result (Plugin.readFile args w) = Ok r) /\
  (exists r, result (Plugin.writeFile args w) = Ok r) /\
  (exists r, result (Plugin.listFiles args w) = Ok r) /\
  (exists r, result (Plugin.listDirectories w) = Ok r) /\
  (exists r, result (Plugin.switchDirectory args w) = Ok r) /\
  (exists r, result (Plugin.removeDirectory args w) = Ok r).
Proof. repeat split; apply tryCatch_returns. Qed.

(** X24: a command that lacks its argument answers with an error reply
    before anything else happens: [writeFile] without content (an empty
    content counts as none) replies [No content provided for writing],
    [switchDirectory] and [removeDirectory] without an id reply
    [No directory ID provided]; they make no call and change nothing. *)
Theorem X24_missing_argument (args : option Plugin.Args) (w : World) :
  (Plugin.given args Plugin.arg_content = None ->
   Plugin.writeFile args w
   = mkOutcome (Ok (Plugin.ReplyError "No content provided for writing")) w []) /\
  (Plugin.given args Plugin.arg_id = None ->
   Plugin.switchDirectory args w
   = mkOutcome (Ok (Plugin.ReplyError "No directory ID provided")) w [] /\
   Plugin.removeDirectory args w
   = mkOutcome (Ok (Plugin.ReplyError "No directory ID provided")) w []).
Proof.
  unfold Plugin.writeFile, Plugin.switchDirectory, Plugin.removeDirectory.
  split; intros H; rewrite H; repeat split.
Qed.

Lemma X24_missing_argument_witness :
  Plugin.writeFile (Some {| Plugin.arg_path := Some "a.txt"; Plugin.arg_content := Some "";
                            Plugin.arg_directory := None; Plugin.arg_id := None |})
                   activeWorld
  = mkOutcome (Ok (Plugin.ReplyError "No content provided for writing")) activeWorld [] /\
  Plugin.removeDirectory None activeWorld
  = mkOutcome (Ok (Plugin.ReplyError "No directory ID provided")) activeWorld [].
Proof.
  split.
  - apply (proj1 (X24_missing_argument _ activeWorld)). reflexivity.
  - apply (proj2 (X24_missing_argument None activeWorld)). reflexivity.
Defined.

Lemma readFile_relays (args : option Plugin.Args) (w : World) :
  let path := Plugin.givenOrEmpty args Plugin.arg_path in
  Plugin.readFile args w
  = mkOutcome (Ok (readReplyFor (result (FAM.readFile path w))
                                (Plugin.given args Plugin.arg_path)))
              (final (FAM.readFile path w)) (calls (FAM.readFile path w)).
Proof.
  unfold Plugin.readFile, Plugin.givenOrEmpty, tryCatch, bind, ret.
  destruct (Plugin.given args Plugin.arg_path) as [p |]; simpl;
    [destruct (FAM.readFile p w) as [[c | e] w1 t1]
    | destruct (FAM.readFile "" w) as [[c | e] w1 t1]];
    simpl; rewrite ?app_nil_r; reflexivity.
Qed.

Lemma writeFile_relays (args : option Plugin.Args) (w : World) (content : string) :
  Plugin.given args Plugin.arg_content = Some content ->
  let path := Plugin.givenOrEmpty args Plugin.arg_path in
  Plugin.writeFile args w
  = mkOutcome (Ok (writeReplyFor (result (FAM.writeFile path content w)) path))
              (final (FAM.writeFile path content w))
              (calls (FAM.writeFile path content w)).
Proof.
  intros Hc. unfold Plugin.writeFile, tryCatch, bind, ret. rewrite Hc. simpl.
  destruct (FAM.writeFile _ content w) as [[c | e] w1 t1];
    simpl; rewrite ?app_nil_r; reflexivity.
Qed.

Lemma listFiles_relays (args : option Plugin.Args) (w : World) :
  let directory := Plugin.givenOrEmpty args Plugin.arg_directory in
  Plugin.listFiles args w
  = mkOutcome (Ok (listReplyFor (result (FAM.listFiles directory w)) directory w))
              w (calls (FAM.listFiles directory w)).
Proof.
  simpl. pose proof (listFiles_final w (Plugin.givenOrEmpty args Plugin.arg_directory)) as Hf.
  unfold Plugin.listFiles, FAM.hasDirectoryPermission, FAM.getRootDirectoryName,
    tryCatch, bind, ret, get.
  destruct (FAM.listFiles _ w) as [[files | e] w1 t1]; simpl in *; subst w1;
    rewrite ?app_nil_r; reflexivity.
Qed.

(** X25: the file commands of the plugin add nothing to the manager's
    operations but the shape of the reply: [readFile], [writeFile] (with
    content) and [listFiles] make exactly the calls of the manager's
    operation on the path given (the empty path when none is given), end
    in the same world, and reply with the manager's result, or with an
    error reply that carries the manager's message behind the prefix. *)
Theorem X25_file_commands_relay (args : option Plugin.Args) (w : World) (content : string) :
  (let path := Plugin.givenOrEmpty args Plugin.arg_path in
   Plugin.readFile args w
   = mkOutcome (Ok (readReplyFor (result (FAM.readFile path w))
                                 (Plugin.given args Plugin.arg_path)))
               (final (FAM.readFile path w)) (calls (FAM.readFile path w))) /\
  (Plugin.given args Plugin.arg_content = Some content ->
   let path := Plugin.givenOrEmpty args Plugin.arg_path in
   Plugin.writeFile args w
   = mkOutcome (Ok (writeReplyFor (result (FAM.writeFile path content w)) path))
               (final (FAM.writeFile path content w))
               (calls (FAM.writeFile path content w))) /\
  (let directory := Plugin.givenOrEmpty args Plugin.arg_directory in
   Plugin.listFiles args w
   = mkOutcome (Ok (listReplyFor (result (FAM.listFiles directory w)) directory w))
               w (calls (FAM.listFiles directory w))).
Proof.
  split; [apply readFile_relays | split; [apply writeFile_relays | apply listFiles_relays]].
Qed.

Lemma X25_file_commands_relay_witness :
  result (Plugin.writeFile helloArgs activeWorld)
  = Ok (Plugin.ReplyWritten
          ("File " ++ Plugin.quote ++ "notes/a.txt" ++ Plugin.quote ++ " written successfully.")).
Proof.
  exact (f_equal result
           (proj1 (proj2 (X25_file_commands_relay helloArgs activeWorld "hello")) eq_refl)).
Defined.

Lemma switchDirectory_relays (args : option Plugin.Args) (w : World) (id : string) :
  Plugin.given args Plugin.arg_id = Some id ->
  Plugin.switchDirectory args w
  = mkOutcome (Ok (switchReplyFor (result (DPM.switchDirectory id w))
                                  (DPM.getRootDirectoryName (final (DPM.switchDirectory id w)))))
              (final (DPM.switchDirectory id w)) (calls (DPM.switchDirectory id w)).
Proof.
  intros Hid.
  unfold Plugin.switchDirectory, FAM.switchDirectory, tryCatch, bind, ret, throw, get.
  rewrite Hid. simpl.
  destruct (DPM.switchDirectory id w) as [[[|] | e] w1 t1];
    simpl; rewrite ?app_nil_r; reflexivity.
Qed.

Lemma removeDirectory_relays (args : option Plugin.Args) (w : World) (id : string) :
  Plugin.given args Plugin.arg_id = Some id ->
  Plugin.removeDirectory args w
  = mkOutcome (Ok (removeReplyFor (result (DPM.removeDirectory id w))))
              (final (DPM.removeDirectory id w)) (calls (DPM.removeDirectory id w)).
Proof.
  intros Hid.
  unfold Plugin.removeDirectory, FAM.removeDirectory, tryCatch, bind, ret, throw.
  rewrite Hid. simpl.
  destruct (DPM.removeDirectory id w) as [[[|] | e] w1 t1];
    simpl; rewrite ?app_nil_r; reflexivity.
Qed.

Lemma listDirectories_relays (w : World) :
  Plugin.listDirectories w
  = mkOutcome (Ok (listDirectoriesReplyFor (result (DPM.getStoredDirectories w))))
              (final (DPM.getStoredDirectories w)) (calls (DPM.getStoredDirectories w)).
Proof.
  unfold Plugin.listDirectories, FAM.getStoredDirectories, tryCatch, bind, ret, throw.
  destruct (DPM.getStoredDirectories w) as [[l | e] w1 t1];
    simpl; rewrite ?app_nil_r; reflexivity.
Qed.

(** X26: the directory commands of the plugin make exactly the calls of
    the directory manager's operation and end in the same world.
    [switchDirectory] replies success with the new root's name, or
    failure for a refused permission; [removeDirectory] replies with the
    manager's boolean; [listDirectories] replies with the manager's list
    and its length; a throw of the manager becomes an error reply with
    the manager's message behind the prefixes of the two layers. *)
Theorem X26_directory_commands_relay (args : option Plugin.Args) (w : World) (id : string) :
  (Plugin.given args Plugin.arg_id = Some id ->
   Plugin.switchDirectory args w
   = mkOutcome (Ok (switchReplyFor (result (DPM.switchDirectory id w))
                      (DPM.getRootDirectoryName (final (DPM.switchDirectory id w)))))
               (final (DPM.switchDirectory id w)) (calls (DPM.switchDirectory id w)) /\
   Plugin.removeDirectory args w
   = mkOutcome (Ok (removeReplyFor (result (DPM.removeDirectory id w))))
               (final (DPM.removeDirectory id w)) (calls (DPM.removeDirectory id w))) /\
  Plugin.listDirectories w
  = mkOutcome (Ok (listDirectoriesReplyFor (result (DPM.getStoredDirectories w))))
              (final (DPM.getStoredDirectories w)) (calls (DPM.getStoredDirectories w)).
Proof.
  split; [intros Hid; split | apply listDirectories_relays].
  - apply (switchDirectory_relays args w id Hid).
  - apply (removeDirectory_relays args w id Hid).
Qed.

Lemma X26_directory_commands_relay_witness :
  result (Plugin.removeDirectory (onlyId "dir_100") activeWorld)
  = Ok (Plugin.ReplyRemove true "Directory removed successfully").
Proof.
  exact (f_equal result
           (proj2 (proj1 (X26_directory_commands_relay (onlyId "dir_100") activeWorld
                                                       "dir_100") eq_refl))).
Defined.

Lemma switch_unknown_run (w : World) (id : string) :
  idbError (oracle w) = None ->
  StorageManager.hasKey id (idb w) = false ->
  result (DPM.switchDirectory id w)
    = Throw ("Failed to switch directory: Directory with ID " ++ id ++ " not found") /\
  session (final (DPM.switchDirectory id w)) = session w.
Proof.
  intros Hdb Habs. apply find_absent in Habs.
  unfold_ops. simpl. repeat case_step; split; reflexivity.
Qed.

(** X27: switching to an id the store does not hold, through the plugin,
    returns an error reply and does not throw; the message carries the
    prefix of each of the three layers; the session is as before. *)
Theorem X27_unknown_id_error_reply (args : option Plugin.Args) (w : World) (id : string) :
  Plugin.given args Plugin.arg_id = Some id ->
  idbError (oracle w) = None ->
  StorageManager.hasKey id (idb w) = false ->
  result (Plugin.switchDirectory args w)
  = Ok (Plugin.ReplyError
          ("Failed to switch directory: Failed to switch directory: "
             ++ "Failed to switch directory: Directory with ID " ++ id ++ " not found")) /\
  session (final (Plugin.switchDirectory args w)) = session w.
Proof.
  intros Hid Hdb Habs.
  destruct (switch_unknown_run w id Hdb Habs) as [Hr Hs].
  rewrite (switchDirectory_relays args w id Hid). simpl. rewrite Hr, Hs.
  split; reflexivity.
Qed.

Lemma X27_unknown_id_error_reply_witness :
  result (Plugin.switchDirectory (onlyId "nope") activeWorld)
  = Ok (Plugin.ReplyError
          "Failed to switch directory: Failed to switch directory: Failed to switch directory: Directory with ID nope not found").
Proof.
  apply (X27_unknown_id_error_reply (onlyId "nope") activeWorld "nope"); reflexivity.
Defined.

(** X28: [requestDirectoryAccess] of the plugin.  A cancelled picker gives
    an error reply with the host's message, after the single picker call;
    the root and the current id stay and the cached permission is reset
    to false.  A refused permission gives the error reply [Directory
    access was denied]; a granted one gives the success reply with the
    name of the picked directory. *)
Theorem X28_request_access_replies (w : World) :
  (forall e, directoryPick (oracle w) = Throw e ->
     Plugin.requestDirectoryAccess w
     = mkOutcome
         (Ok (Plugin.ReplyError
                ("Failed to request directory access: Failed to get directory permission: "
                   ++ e)))
         (set_session (set_permissionGranted false) w) [DirectoryPicker]) /\
  (result (DPM.requestDirectoryPermission w) = Ok false ->
   result (Plugin.requestDirectoryAccess w)
   = Ok (Plugin.ReplyError "Directory access was denied")) /\
  (forall h, directoryPick (oracle w) = Ok h ->
     result (DPM.requestDirectoryPermission w) = Ok true ->
     result (Plugin.requestDirectoryAccess w)
     = Ok (Plugin.ReplyAccess (handleName h)
                              ("Access granted to directory: " ++ handleName h))).
Proof.
  unfold Plugin.requestDirectoryAccess, FAM.requestDirectoryAccess, DPM.getRootDirectoryName.
  unfold_ops. simpl. split; [| split].
  - intros e He. rewrite He. reflexivity.
  - repeat case_step; intros H; try discriminate H; reflexivity.
  - intros h Hh. rewrite Hh. simpl.
    repeat case_step; intros H; try discriminate H; reflexivity.
Qed.

Lemma X28_request_access_replies_witness :
  result (Plugin.requestDirectoryAccess refusedWorld)
    = Ok (Plugin.ReplyError "Directory access was denied") /\
  result (Plugin.requestDirectoryAccess freshWorld)
    = Ok (Plugin.ReplyAccess "home" "Access granted to directory: home").
Proof.
  split.
  - apply (proj1 (proj2 (X28_request_access_replies refusedWorld))). reflexivity.
  - apply (proj2 (proj2 (X28_request_access_replies freshWorld)) ["home"]); reflexivity.
Defined.

(** ** Handles stay under the root *)

Lemma bind_result_ok {A B : Type} (m : M A) (f : A -> M B) (w : World) (b : B) :
  result (bind m f w) = Ok b ->
  exists a, result (m w) = Ok a /\ result (f a (final (m w))) = Ok b /\
            final (bind m f w) = final (f a (final (m w))).
Proof.
  unfold bind. destruct (m w) as [[a | e] w1 t1]; simpl; [| discriminate].
  destruct (f a w1) as [r w2 t2] eqn:E. simpl. intros ->.
  exists a. rewrite E. repeat split.
Qed.

Lemma tryCatch_result_ok {A : Type} (m : M A) (e' : string -> string) (w : World) (a : A) :
  result (tryCatch m (fun e => throw (e' e)) w) = Ok a -> result (m w) = Ok a.
Proof.
  unfold tryCatch, throw. destruct (m w) as [[x | e] w1 t1]; simpl; [auto | discriminate].
Qed.

Lemma hostDirectory_ok (w : World) (parent h : Handle) (name : string) (create : bool) :
  result (Host.getDirectoryHandle parent name create w) = Ok h ->
  h = parent ++ [name] /\ Host.validName name = true.
Proof.
  unfold Host.getDirectoryHandle. unfold_ops. simpl.
  destruct (Host.validName name); simpl; [| discriminate].
  repeat case_step; intros H; try discriminate H; injection H as <-; split; reflexivity.
Qed.

Lemma hostFile_ok (w : World) (parent h : Handle) (name : string) (create : bool) :
  result (Host.getFileHandle parent name create w) = Ok h ->
  h = parent ++ [name] /\ Host.validName name = true /\
  exists en b m,
    lookup (tree (final (Host.getFileHandle parent name create w))) parent = Some (Dir en) /\
    assoc name en = Some (File b m).
Proof.
  unfold Host.getFileHandle. unfold_ops. simpl.
  destruct (Host.validName name); simpl; [| discriminate].
  destruct (accessDenied (oracle w) parent); simpl; [discriminate |].
  destruct (lookup (tree w) parent) as [[b m | es] |] eqn:Hl; simpl; try discriminate.
  destruct (assoc name es) as [[b m | es'] |] eqn:Ha; simpl; try discriminate.
  - intros H. injection H as <-. repeat split. exists es, b, m. split; assumption.
  - destruct create; simpl; [| discriminate].
    rewrite (put_child _ _ _ _ _ Hl). simpl.
    intros H. injection H as <-. repeat split.
    exists (upsert name (File "" (clock w)) es), "", (clock w).
    split; [apply (lookup_graft _ _ _ _ Hl) | apply assoc_upsert_same].
Qed.

Lemma walk_ok (segments : list string) (create : bool) (w : World) (currentDir h : Handle) :
  result (DPM.walk currentDir segments create w) = Ok h ->
  h = currentDir ++ segments /\ forallb Host.validName segments = true.
Proof.
  revert w currentDir. induction segments as [| seg rest IH]; intros w currentDir; simpl.
  - intros H. injection H as <-. rewrite app_nil_r. split; reflexivity.
  - intros H. apply bind_result_ok in H. destruct H as [next [Hn [Hr _]]].
    apply hostDirectory_ok in Hn. destruct Hn as [-> Hv].
    apply IH in Hr. destruct Hr as [-> Hrest].
    rewrite Hv, Hrest, <- app_assoc. split; reflexivity.
Qed.

Lemma segments_split (segments : list string) :
  segments <> [] -> removelast segments ++ [last segments ""] = segments.
Proof. intros H. symmetry. apply app_removelast_last. exact H. Qed.

Lemma forallb_removelast_last (f : string -> bool) (l : list string) :
  l <> [] -> forallb f l = forallb f (removelast l) && f (last l "").
Proof.
  intros H. rewrite (app_removelast_last "" H) at 1.
  rewrite forallb_app. simpl. rewrite andb_true_r. reflexivity.
Qed.

Lemma fileHandleAt_ok (w : World) (root h : Handle) (path : string) (create : bool) :
  result (DPM.fileHandleAt root path create w) = Ok h ->
  Js.segmentsOf path <> [] /\
  h = root ++ Js.segmentsOf path /\
  forallb Host.validName (Js.segmentsOf path) = true /\
  exists en b m,
    lookup (tree (final (DPM.fileHandleAt root path create w)))
           (root ++ removelast (Js.segmentsOf path)) = Some (Dir en) /\
    assoc (last (Js.segmentsOf path) "") en = Some (File b m).
Proof.
  unfold DPM.fileHandleAt.
  destruct (Js.segmentsOf path) as [| s0 rest] eqn:Hsegs; [discriminate |].
  remember (s0 :: rest) as segs eqn:Hs.
  assert (Hne : segs <> []) by (subst segs; discriminate).
  assert (Hlen : (length segs =? 0)%nat = false) by (subst segs; reflexivity).
  rewrite Hlen.
  intros H. apply bind_result_ok in H. destruct H as [d [Hd [Hf Hfinal]]].
  apply walk_ok in Hd. destruct Hd as [-> Hvalid].
  pose proof (hostFile_ok _ _ _ _ _ Hf) as [-> [Hv [en [b [m [Hl Ha]]]]]].
  split; [exact Hne | split; [| split]].
  - rewrite <- app_assoc, (segments_split _ Hne). reflexivity.
  - rewrite (forallb_removelast_last _ _ Hne), Hvalid, Hv. reflexivity.
  - exists en, b, m. rewrite Hfinal. split; assumption.
Qed.

(** X29: the handles the directory manager resolves stay under the root:
    a handle returned by [getFileHandle] or [createFileHandle] is the root
    followed by the non-empty segments of the path, and one returned by
    [getDirectoryHandle] is the root or the root followed by those
    segments; every segment is a name the host accepts, so none is [.] or
    [..]. *)
Theorem X29_resolved_handles_under_root (w : World) (root h : Handle) (path : string) :
  rootDirectoryHandle (session w) = Some root ->
  (result (DPM.getFileHandle path w) = Ok h \/ result (DPM.createFileHandle path w) = Ok h ->
   h = root ++ Js.segmentsOf path /\
   forallb Host.validName (Js.segmentsOf path) = true) /\
  (result (DPM.getDirectoryHandle path w) = Ok h ->
   h = root \/
   (h = root ++ Js.segmentsOf path /\ forallb Host.validName (Js.segmentsOf path) = true)).
Proof.
  intros Hroot. split.
  - unfold DPM.getFileHandle, DPM.createFileHandle. rewrite !bind_get, Hroot.
    intros [H | H]; apply tryCatch_result_ok, fileHandleAt_ok in H;
      destruct H as [_ [Hh [Hv _]]]; split; assumption.
  - unfold DPM.getDirectoryHandle. rewrite bind_get, Hroot.
    intros H. apply tryCatch_result_ok in H.
    destruct (negb (Js.truthy path) || String.eqb path "/" || String.eqb path ".").
    + left. injection H as <-. reflexivity.
    + right. apply walk_ok in H. exact H.
Qed.

Lemma X29_resolved_handles_under_root_witness :
  ["home"; "big.bin"] = ["home"] ++ Js.segmentsOf "big.bin" /\
  forallb Host.validName (Js.segmentsOf "big.bin") = true.
Proof.
  apply (proj1 (X29_resolved_handles_under_root activeWorld ["home"] ["home"; "big.bin"]
                  "big.bin" eq_refl)).
  left. reflexivity.
Defined.

(** ** Writing then reading, on any path *)






